(** * Trivy scanner adapter of Kalm-Benchmark: a shallow embedding

    Source: [src/kalm_benchmark/evaluation/scanner/trivy.py].

    A Python [str] is modelled by the Rocq string of its UTF-8 bytes.
    The separators the code splits on (newline, space, slash, dot) are
    ASCII, so splitting the bytes is splitting the characters; the
    character classes of the identifier pattern decode the bytes and look
    at code points.  A [str] that holds a lone surrogate has no UTF-8
    encoding and is outside the model.  Raised exceptions are values of
    [exn]; calls of [logger.warning] append to an explicit log. *)

From Stdlib Require Import Ascii String NArith Lia.
From stdpp Require Import gmap strings list fin_maps.

(** ** Backtracking regular expressions

    The fragment of Python's [re] that [check_id_pattern] uses: literal
    characters, character classes, concatenation and the greedy [+].
    The text is the UTF-8 encoding of the [str]: a character class
    consumes the bytes of one character and looks at its code point. *)
Module Re.

(** The payload of a continuation byte [10xxxxxx]. *)
Definition continuation (b : ascii) : option N :=
let n := N_of_ascii b in
if (128 <=? n)%N && (n <? 192)%N then Some (n - 128)%N else None.

(** What a first byte announces: the number of continuation bytes, its
    own payload, and the least and greatest code point of that length. *)
Definition lead (b : ascii) : option (nat * N * N * N) :=
let n := N_of_ascii b in
if (n <? 128)%N then Some (0, n, 0%N, 127%N)
else if (192 <=? n)%N && (n <? 224)%N then Some (1, (n - 192)%N, 128%N, 2047%N)
else if (224 <=? n)%N && (n <? 240)%N then Some (2, (n - 224)%N, 2048%N, 65535%N)
else if (240 <=? n)%N && (n <? 248)%N then Some (3, (n - 240)%N, 65536%N, 1114111%N)
else None.

(** The [k] continuation bytes that follow, added to the payload [acc]. *)
Fixpoint tail (k : nat) (acc : N) (s : list ascii) : option (N * list ascii) :=
match k with
| O => Some (acc, s)
| S k' =>
    match s with
    | b :: s' =>
        match continuation b with
        | Some c => tail k' (acc * 64 + c)%N s'
        | None => None
        end
    | [] => None
    end
end.

Definition surrogate (cp : N) : bool := (55296 <=? cp)%N && (cp <=? 57343)%N.

(** The code point of the first character of [s] and the text after it;
    [None] when [s] is empty or does not start with the UTF-8 encoding of
    a character. *)
Definition decode_char (s : list ascii) : option (N * list ascii) :=
match s with
| [] => None
| b :: s1 =>
    match lead b with
    | Some (k, v, lo, hi) =>
        match tail k v s1 with
        | Some (cp, s') =>
            if (lo <=? cp)%N && (cp <=? hi)%N && negb (surrogate cp)
            then Some (cp, s') else None
        | None => None
        end
    | None => None
    end
end.

Definition in_ranges (ranges : list (N * N)) (cp : N) : bool :=
existsb (fun r => (r.1 <=? cp)%N && (cp <=? r.2)%N) ranges.

(** The code points of the decimal digits, the characters that [\d] matches
    in a [str] pattern (Unicode 14.0, as in CPython 3.11), in ranges. *)
Definition digit_ranges : list (N * N) :=
  [
   (48, 57); (1632, 1641); (1776, 1785); (1984, 1993); (2406, 2415); (2534, 2543);
   (2662, 2671); (2790, 2799); (2918, 2927); (3046, 3055); (3174, 3183); (3302, 3311);
   (3430, 3439); (3558, 3567); (3664, 3673); (3792, 3801); (3872, 3881); (4160, 4169);
   (4240, 4249); (6112, 6121); (6160, 6169); (6470, 6479); (6608, 6617); (6784, 6793);
   (6800, 6809); (6992, 7001); (7088, 7097); (7232, 7241); (7248, 7257); (42528, 42537);
   (43216, 43225); (43264, 43273); (43472, 43481); (43504, 43513); (43600, 43609); (44016, 44025);
   (65296, 65305); (66720, 66729); (68912, 68921); (69734, 69743); (69872, 69881); (69942, 69951);
   (70096, 70105); (70384, 70393); (70736, 70745); (70864, 70873); (71248, 71257); (71360, 71369);
   (71472, 71481); (71904, 71913); (72016, 72025); (72784, 72793); (73040, 73049); (73120, 73129);
   (92768, 92777); (92864, 92873); (93008, 93017); (120782, 120831); (123200, 123209); (123632, 123641);
   (125264, 125273); (130032, 130041)
  ]%N.

(** The code points of the word characters, the alphanumeric characters
    and the underscore that [\w] matches in a [str] pattern (Unicode 14.0,
    as in CPython 3.11), in ranges. *)
Definition word_ranges : list (N * N) :=
  [
   (48, 57); (65, 90); (95, 95); (97, 122); (170, 170); (178, 179);
   (181, 181); (185, 186); (188, 190); (192, 214); (216, 246); (248, 705);
   (710, 721); (736, 740); (748, 748); (750, 750); (880, 884); (886, 887);
   (890, 893); (895, 895); (902, 902); (904, 906); (908, 908); (910, 929);
   (931, 1013); (1015, 1153); (1162, 1327); (1329, 1366); (1369, 1369); (1376, 1416);
   (1488, 1514); (1519, 1522); (1568, 1610); (1632, 1641); (1646, 1647); (1649, 1747);
   (1749, 1749); (1765, 1766); (1774, 1788); (1791, 1791); (1808, 1808); (1810, 1839);
   (1869, 1957); (1969, 1969); (1984, 2026); (2036, 2037); (2042, 2042); (2048, 2069);
   (2074, 2074); (2084, 2084); (2088, 2088); (2112, 2136); (2144, 2154); (2160, 2183);
   (2185, 2190); (2208, 2249); (2308, 2361); (2365, 2365); (2384, 2384); (2392, 2401);
   (2406, 2415); (2417, 2432); (2437, 2444); (2447, 2448); (2451, 2472); (2474, 2480);
   (2482, 2482); (2486, 2489); (2493, 2493); (2510, 2510); (2524, 2525); (2527, 2529);
   (2534, 2545); (2548, 2553); (2556, 2556); (2565, 2570); (2575, 2576); (2579, 2600);
   (2602, 2608); (2610, 2611); (2613, 2614); (2616, 2617); (2649, 2652); (2654, 2654);
   (2662, 2671); (2674, 2676); (2693, 2701); (2703, 2705); (2707, 2728); (2730, 2736);
   (2738, 2739); (2741, 2745); (2749, 2749); (2768, 2768); (2784, 2785); (2790, 2799);
   (2809, 2809); (2821, 2828); (2831, 2832); (2835, 2856); (2858, 2864); (2866, 2867);
   (2869, 2873); (2877, 2877); (2908, 2909); (2911, 2913); (2918, 2927); (2929, 2935);
   (2947, 2947); (2949, 2954); (2958, 2960); (2962, 2965); (2969, 2970); (2972, 2972);
   (2974, 2975); (2979, 2980); (2984, 2986); (2990, 3001); (3024, 3024); (3046, 3058);
   (3077, 3084); (3086, 3088); (3090, 3112); (3114, 3129); (3133, 3133); (3160, 3162);
   (3165, 3165); (3168, 3169); (3174, 3183); (3192, 3198); (3200, 3200); (3205, 3212);
   (3214, 3216); (3218, 3240); (3242, 3251); (3253, 3257); (3261, 3261); (3293, 3294);
   (3296, 3297); (3302, 3311); (3313, 3314); (3332, 3340); (3342, 3344); (3346, 3386);
   (3389, 3389); (3406, 3406); (3412, 3414); (3416, 3425); (3430, 3448); (3450, 3455);
   (3461, 3478); (3482, 3505); (3507, 3515); (3517, 3517); (3520, 3526); (3558, 3567);
   (3585, 3632); (3634, 3635); (3648, 3654); (3664, 3673); (3713, 3714); (3716, 3716);
   (3718, 3722); (3724, 3747); (3749, 3749); (3751, 3760); (3762, 3763); (3773, 3773);
   (3776, 3780); (3782, 3782); (3792, 3801); (3804, 3807); (3840, 3840); (3872, 3891);
   (3904, 3911); (3913, 3948); (3976, 3980); (4096, 4138); (4159, 4169); (4176, 4181);
   (4186, 4189); (4193, 4193); (4197, 4198); (4206, 4208); (4213, 4225); (4238, 4238);
   (4240, 4249); (4256, 4293); (4295, 4295); (4301, 4301); (4304, 4346); (4348, 4680);
   (4682, 4685); (4688, 4694); (4696, 4696); (4698, 4701); (4704, 4744); (4746, 4749);
   (4752, 4784); (4786, 4789); (4792, 4798); (4800, 4800); (4802, 4805); (4808, 4822);
   (4824, 4880); (4882, 4885); (4888, 4954); (4969, 4988); (4992, 5007); (5024, 5109);
   (5112, 5117); (5121, 5740); (5743, 5759); (5761, 5786); (5792, 5866); (5870, 5880);
   (5888, 5905); (5919, 5937); (5952, 5969); (5984, 5996); (5998, 6000); (6016, 6067);
   (6103, 6103); (6108, 6108); (6112, 6121); (6128, 6137); (6160, 6169); (6176, 6264);
   (6272, 6276); (6279, 6312); (6314, 6314); (6320, 6389); (6400, 6430); (6470, 6509);
   (6512, 6516); (6528, 6571); (6576, 6601); (6608, 6618); (6656, 6678); (6688, 6740);
   (6784, 6793); (6800, 6809); (6823, 6823); (6917, 6963); (6981, 6988); (6992, 7001);
   (7043, 7072); (7086, 7141); (7168, 7203); (7232, 7241); (7245, 7293); (7296, 7304);
   (7312, 7354); (7357, 7359); (7401, 7404); (7406, 7411); (7413, 7414); (7418, 7418);
   (7424, 7615); (7680, 7957); (7960, 7965); (7968, 8005); (8008, 8013); (8016, 8023);
   (8025, 8025); (8027, 8027); (8029, 8029); (8031, 8061); (8064, 8116); (8118, 8124);
   (8126, 8126); (8130, 8132); (8134, 8140); (8144, 8147); (8150, 8155); (8160, 8172);
   (8178, 8180); (8182, 8188); (8304, 8305); (8308, 8313); (8319, 8329); (8336, 8348);
   (8450, 8450); (8455, 8455); (8458, 8467); (8469, 8469); (8473, 8477); (8484, 8484);
   (8486, 8486); (8488, 8488); (8490, 8493); (8495, 8505); (8508, 8511); (8517, 8521);
   (8526, 8526); (8528, 8585); (9312, 9371); (9450, 9471); (10102, 10131); (11264, 11492);
   (11499, 11502); (11506, 11507); (11517, 11517); (11520, 11557); (11559, 11559); (11565, 11565);
   (11568, 11623); (11631, 11631); (11648, 11670); (11680, 11686); (11688, 11694); (11696, 11702);
   (11704, 11710); (11712, 11718); (11720, 11726); (11728, 11734); (11736, 11742); (11823, 11823);
   (12293, 12295); (12321, 12329); (12337, 12341); (12344, 12348); (12353, 12438); (12445, 12447);
   (12449, 12538); (12540, 12543); (12549, 12591); (12593, 12686); (12690, 12693); (12704, 12735);
   (12784, 12799); (12832, 12841); (12872, 12879); (12881, 12895); (12928, 12937); (12977, 12991);
   (13312, 19903); (19968, 42124); (42192, 42237); (42240, 42508); (42512, 42539); (42560, 42606);
   (42623, 42653); (42656, 42735); (42775, 42783); (42786, 42888); (42891, 42954); (42960, 42961);
   (42963, 42963); (42965, 42969); (42994, 43009); (43011, 43013); (43015, 43018); (43020, 43042);
   (43056, 43061); (43072, 43123); (43138, 43187); (43216, 43225); (43250, 43255); (43259, 43259);
   (43261, 43262); (43264, 43301); (43312, 43334); (43360, 43388); (43396, 43442); (43471, 43481);
   (43488, 43492); (43494, 43518); (43520, 43560); (43584, 43586); (43588, 43595); (43600, 43609);
   (43616, 43638); (43642, 43642); (43646, 43695); (43697, 43697); (43701, 43702); (43705, 43709);
   (43712, 43712); (43714, 43714); (43739, 43741); (43744, 43754); (43762, 43764); (43777, 43782);
   (43785, 43790); (43793, 43798); (43808, 43814); (43816, 43822); (43824, 43866); (43868, 43881);
   (43888, 44002); (44016, 44025); (44032, 55203); (55216, 55238); (55243, 55291); (63744, 64109);
   (64112, 64217); (64256, 64262); (64275, 64279); (64285, 64285); (64287, 64296); (64298, 64310);
   (64312, 64316); (64318, 64318); (64320, 64321); (64323, 64324); (64326, 64433); (64467, 64829);
   (64848, 64911); (64914, 64967); (65008, 65019); (65136, 65140); (65142, 65276); (65296, 65305);
   (65313, 65338); (65345, 65370); (65382, 65470); (65474, 65479); (65482, 65487); (65490, 65495);
   (65498, 65500); (65536, 65547); (65549, 65574); (65576, 65594); (65596, 65597); (65599, 65613);
   (65616, 65629); (65664, 65786); (65799, 65843); (65856, 65912); (65930, 65931); (66176, 66204);
   (66208, 66256); (66273, 66299); (66304, 66339); (66349, 66378); (66384, 66421); (66432, 66461);
   (66464, 66499); (66504, 66511); (66513, 66517); (66560, 66717); (66720, 66729); (66736, 66771);
   (66776, 66811); (66816, 66855); (66864, 66915); (66928, 66938); (66940, 66954); (66956, 66962);
   (66964, 66965); (66967, 66977); (66979, 66993); (66995, 67001); (67003, 67004); (67072, 67382);
   (67392, 67413); (67424, 67431); (67456, 67461); (67463, 67504); (67506, 67514); (67584, 67589);
   (67592, 67592); (67594, 67637); (67639, 67640); (67644, 67644); (67647, 67669); (67672, 67702);
   (67705, 67742); (67751, 67759); (67808, 67826); (67828, 67829); (67835, 67867); (67872, 67897);
   (67968, 68023); (68028, 68047); (68050, 68096); (68112, 68115); (68117, 68119); (68121, 68149);
   (68160, 68168); (68192, 68222); (68224, 68255); (68288, 68295); (68297, 68324); (68331, 68335);
   (68352, 68405); (68416, 68437); (68440, 68466); (68472, 68497); (68521, 68527); (68608, 68680);
   (68736, 68786); (68800, 68850); (68858, 68899); (68912, 68921); (69216, 69246); (69248, 69289);
   (69296, 69297); (69376, 69415); (69424, 69445); (69457, 69460); (69488, 69505); (69552, 69579);
   (69600, 69622); (69635, 69687); (69714, 69743); (69745, 69746); (69749, 69749); (69763, 69807);
   (69840, 69864); (69872, 69881); (69891, 69926); (69942, 69951); (69956, 69956); (69959, 69959);
   (69968, 70002); (70006, 70006); (70019, 70066); (70081, 70084); (70096, 70106); (70108, 70108);
   (70113, 70132); (70144, 70161); (70163, 70187); (70272, 70278); (70280, 70280); (70282, 70285);
   (70287, 70301); (70303, 70312); (70320, 70366); (70384, 70393); (70405, 70412); (70415, 70416);
   (70419, 70440); (70442, 70448); (70450, 70451); (70453, 70457); (70461, 70461); (70480, 70480);
   (70493, 70497); (70656, 70708); (70727, 70730); (70736, 70745); (70751, 70753); (70784, 70831);
   (70852, 70853); (70855, 70855); (70864, 70873); (71040, 71086); (71128, 71131); (71168, 71215);
   (71236, 71236); (71248, 71257); (71296, 71338); (71352, 71352); (71360, 71369); (71424, 71450);
   (71472, 71483); (71488, 71494); (71680, 71723); (71840, 71922); (71935, 71942); (71945, 71945);
   (71948, 71955); (71957, 71958); (71960, 71983); (71999, 71999); (72001, 72001); (72016, 72025);
   (72096, 72103); (72106, 72144); (72161, 72161); (72163, 72163); (72192, 72192); (72203, 72242);
   (72250, 72250); (72272, 72272); (72284, 72329); (72349, 72349); (72368, 72440); (72704, 72712);
   (72714, 72750); (72768, 72768); (72784, 72812); (72818, 72847); (72960, 72966); (72968, 72969);
   (72971, 73008); (73030, 73030); (73040, 73049); (73056, 73061); (73063, 73064); (73066, 73097);
   (73112, 73112); (73120, 73129); (73440, 73458); (73648, 73648); (73664, 73684); (73728, 74649);
   (74752, 74862); (74880, 75075); (77712, 77808); (77824, 78894); (82944, 83526); (92160, 92728);
   (92736, 92766); (92768, 92777); (92784, 92862); (92864, 92873); (92880, 92909); (92928, 92975);
   (92992, 92995); (93008, 93017); (93019, 93025); (93027, 93047); (93053, 93071); (93760, 93846);
   (93952, 94026); (94032, 94032); (94099, 94111); (94176, 94177); (94179, 94179); (94208, 100343);
   (100352, 101589); (101632, 101640); (110576, 110579); (110581, 110587); (110589, 110590); (110592, 110882);
   (110928, 110930); (110948, 110951); (110960, 111355); (113664, 113770); (113776, 113788); (113792, 113800);
   (113808, 113817); (119520, 119539); (119648, 119672); (119808, 119892); (119894, 119964); (119966, 119967);
   (119970, 119970); (119973, 119974); (119977, 119980); (119982, 119993); (119995, 119995); (119997, 120003);
   (120005, 120069); (120071, 120074); (120077, 120084); (120086, 120092); (120094, 120121); (120123, 120126);
   (120128, 120132); (120134, 120134); (120138, 120144); (120146, 120485); (120488, 120512); (120514, 120538);
   (120540, 120570); (120572, 120596); (120598, 120628); (120630, 120654); (120656, 120686); (120688, 120712);
   (120714, 120744); (120746, 120770); (120772, 120779); (120782, 120831); (122624, 122654); (123136, 123180);
   (123191, 123197); (123200, 123209); (123214, 123214); (123536, 123565); (123584, 123627); (123632, 123641);
   (124896, 124902); (124904, 124907); (124909, 124910); (124912, 124926); (124928, 125124); (125127, 125135);
   (125184, 125251); (125259, 125259); (125264, 125273); (126065, 126123); (126125, 126127); (126129, 126132);
   (126209, 126253); (126255, 126269); (126464, 126467); (126469, 126495); (126497, 126498); (126500, 126500);
   (126503, 126503); (126505, 126514); (126516, 126519); (126521, 126521); (126523, 126523); (126530, 126530);
   (126535, 126535); (126537, 126537); (126539, 126539); (126541, 126543); (126545, 126546); (126548, 126548);
   (126551, 126551); (126553, 126553); (126555, 126555); (126557, 126557); (126559, 126559); (126561, 126562);
   (126564, 126564); (126567, 126570); (126572, 126578); (126580, 126583); (126585, 126588); (126590, 126590);
   (126592, 126601); (126603, 126619); (126625, 126627); (126629, 126633); (126635, 126651); (127232, 127244);
   (130032, 130041); (131072, 173791); (173824, 177976); (177984, 178205); (178208, 183969); (183984, 191456);
   (194560, 195101); (196608, 201546)
  ]%N.

(** [\d] and [\w] of a [str] pattern, on code points. *)
Definition is_digit (cp : N) : bool := in_ranges digit_ranges cp.

Definition is_word (cp : N) : bool := in_ranges word_ranges cp.

Inductive regex : Type :=
| Chr (c : ascii)
| Class (p : N -> bool)
| Seq (r1 r2 : regex)
| Plus (r : regex).

(** The language of a regex, as a set of texts.  [Chr c] is a literal
    ASCII character, one byte; [Class p] is one character whose code
    point satisfies [p]. *)
Inductive matches : regex -> list ascii -> Prop :=
| m_chr c : matches (Chr c) [c]
| m_class p u cp : decode_char u = Some (cp, []) -> p cp = true -> matches (Class p) u
| m_seq r1 r2 u v : matches r1 u -> matches r2 v -> matches (Seq r1 r2) (u ++ v)
| m_plus_one r u : matches r u -> matches (Plus r) u
| m_plus_more r u v : matches r u -> matches (Plus r) v -> matches (Plus r) (u ++ v).

(** The iterations of a greedy [+] whose body is matched by [step]:
    after each iteration the engine first tries one more, then stops. *)
Fixpoint plus_loop (step : list ascii -> list (list ascii)) (n : nat)
    (s : list ascii) : list (list ascii) :=
match n with
| O => []
| S n' => s1 ← step s; plus_loop step n' s1 ++ [s1]
end.

(** The backtracking matcher.  [rmatch r s] lists, in the order in which
    the engine tries them, the remainders of [s] after a match of [r] at
    its start.  Every regex of this fragment consumes at least one
    byte, so [+] iterates at most [length s] times. *)
Fixpoint rmatch (r : regex) (s : list ascii) : list (list ascii) :=
match r with
| Chr c =>
    match s with
    | c' :: s' => if Ascii.eqb c c' then [s'] else []
    | [] => []
    end
| Class p =>
    match decode_char s with
    | Some (cp, s') => if p cp then [s'] else []
    | None => []
    end
| Seq r1 r2 => s1 ← rmatch r1 s; rmatch r2 s1
| Plus r1 => plus_loop (rmatch r1) (S (length s)) s
end.

(** Whether [s] starts with a character of the class [p]. *)
Definition first_is (p : N -> bool) (s : list ascii) : bool :=
match decode_char s with
| Some (cp, _) => p cp
| None => false
end.

(** Whether [s] starts with the byte [c]. *)
Definition first_byte_is (c : ascii) (s : list ascii) : bool :=
match s with
| c' :: _ => Ascii.eqb c c'
| [] => false
end.

(** [re.compile(p).search(s)] for a pattern [p] that starts with [^]
    (no MULTILINE flag): the only candidate position is the start of the
    string; the result is the text of the first match found. *)
Definition search_anchored (r : regex) (s : string) : option string :=
let cs := list_ascii_of_string s in
match rmatch r cs with
| rest :: _ => Some (string_of_list_ascii (take (length cs - length rest) cs))
| [] => None
end.

End Re.

(** ** Python string operations *)
Module Py.

(** [s.split(sep)] for a separator of one character. *)
Fixpoint split (sep : ascii) (s : string) : list string :=
  match s with
  | EmptyString => [EmptyString]
  | String c s' =>
      if Ascii.eqb c sep then EmptyString :: split sep s'
      else match split sep s' with
           | h :: t => String c h :: t
           | [] => [String c EmptyString]
           end
  end.

(** [sep.join(l)]. *)
Definition join (sep : string) (l : list string) : string := String.concat sep l.

(** [s.rfind(c)] for one character, [None] standing for [-1]. *)
Fixpoint rfind (c : ascii) (s : string) : option nat :=
  match s with
  | EmptyString => None
  | String c' s' =>
      match rfind c s' with
      | Some i => Some (S i)
      | None => if Ascii.eqb c' c then Some O else None
      end
  end.

(** [pathlib.PurePosixPath(p).name]: the last component of [p], where
    empty components and [.] components are dropped; empty if none is
    left. *)
Definition path_name (p : string) : string :=
  List.last
    (List.filter (fun x => negb (String.eqb x "" || String.eqb x "."))
                 (split "/"%char p))
    EmptyString.

(** [pathlib.Path(p).stem] (POSIX flavour, CPython up to 3.13): the name
    without its last suffix; a dot in first or last position starts no
    suffix. *)
Definition stem (p : string) : string :=
  let name := path_name p in
  match rfind "."%char name with
  | Some i =>
      if (0 <? i) && (i <? String.length name - 1) then String.substring 0 i name
      else name
  | None => name
  end.

End Py.

(** ** Exceptions and the log *)

Inductive exn : Type :=
| KeyError (key : string)
| ValueError.

Inductive log_record : Type :=
| Warning (msg : string).

Inductive outcome (A : Type) : Type :=
| Returns (a : A)
| Raises (e : exn).
Arguments Returns {A} a.
Arguments Raises {A} e.

(** A computation that may log and may raise: it maps the log so far to
    its outcome and the log afterwards. *)
Definition M (A : Type) : Type := list log_record -> outcome A * list log_record.

Definition ret {A} (a : A) : M A := fun log => (Returns a, log).

Definition raise {A} (e : exn) : M A := fun log => (Raises e, log).

Definition bind {A B} (m : M A) (k : A -> M B) : M B :=
  fun log =>
    match m log with
    | (Returns a, log') => k a log'
    | (Raises e, log') => (Raises e, log')
    end.

Notation "'let*' x ':=' m 'in' k" := (bind m (fun x => k))
  (at level 10, x name, m at level 100, k at level 200).

(** [logger.warning(msg)]. *)
Definition warning (msg : string) : M unit :=
  fun log => (Returns tt, log ++ [Warning msg]).

(** [d[key]] on a dict. *)
Definition subscript (d : gmap string string) (key : string) : M string :=
  match d !! key with
  | Some v => ret v
  | None => raise (KeyError key)
  end.

(** [d[key]] where the member [key] of the dict [d] is kept as an option. *)
Definition member {A} (key : string) (v : option A) : M A :=
  match v with
  | Some a => ret a
  | None => raise (KeyError key)
  end.

(** ** Collaborator types *)

(** Modelled from the spec: the category enumeration of
    [scanner_evaluator], of which the table uses these members. *)
Inductive CheckCategory : Type :=
| Workload | Reliability | Network | IAM | DataSecurity | AdmissionControl.

(** Modelled from the spec: the binary status enumeration of
    [scanner_evaluator]. *)
Inductive CheckStatus : Type :=
| Alert | Pass.

(** Modelled from the spec: the result record of [scanner_evaluator],
    with the fields that [parse_results] sets. *)
Record CheckResult : Type := {
  check_id : option string;
  obj_name : string;
  scanner_check_id : string;
  scanner_check_name : string;
  checked_path : string;
  severity : string;
  got : CheckStatus;
  details : string;
  extra : string
}.

(** The shapes of the second component of a table entry that
    [get_checked_path] tells apart: a [str], a [list], or [None]. *)
Inductive paths : Type :=
| Single (p : string)
| Multiple (ps : list string)
| Absent.

(** ** The mapping table *)

Definition CHECK_MAPPING_items : list (string * (CheckCategory * paths)) :=
  [
    ("KSV001", (Workload, Multiple [".spec.containers[].securityContext.allowPrivilegeEscalation"]));
    ("KSV002", (Workload, Multiple [(".metadata.annotations.container.apparmor.security.beta.kubernetes.io" +:+ ".metadata.annotations[container.apparmor.security.beta.kubernetes.io]")]));
    ("KSV003", (Workload, Multiple [".spec.containers[].securityContext.capabilities.drop"]));
    ("KSV004", (Workload, Multiple [".spec.containers[].securityContext.capabilities.drop"]));
    ("KSV005", (Workload, Multiple [".spec.containers[].securityContext.capabilities.add"]));
    ("KSV006", (Workload, Multiple [".spec.volumes[].hostPath.path"]));
    ("KSV007", (Workload, Multiple [".spec.hostAliases"]));
    ("KSV008", (Workload, Multiple [".spec.hostIPC"]));
    ("KSV009", (Workload, Multiple [".spec.hostNetwork"]));
    ("KSV010", (Workload, Multiple [".spec.hostPID"]));
    ("KSV011", (Reliability, Multiple [".spec.containers[].resources.limits.cpu"]));
    ("KSV012", (Workload, Multiple
      [".spec.securityContext.runAsNonRoot";
       ".spec.containers[].securityContext.runAsNonRoot"]));
    ("KSV013", (Workload, Multiple [".spec.containers[].image"]));
    ("KSV014", (Workload, Multiple [".spec.containers[].securityContext.readOnlyRootFilesystem"]));
    ("KSV015", (Reliability, Multiple [".spec.containers[].resources.requests.cpu"]));
    ("KSV016", (Reliability, Multiple [".spec.containers[].resources.requests.memory"]));
    ("KSV017", (Workload, Multiple [".spec.containers[].securityContext.privileged"]));
    ("KSV018", (Reliability, Multiple [".spec.containers[].resources.limits.memory"]));
    ("KSV020", (Workload, Multiple [".spec.containers[].securityContext.runAsUser"]));
    ("KSV021", (Workload, Multiple [".spec.containers[].securityContext.runAsGroup"]));
    ("KSV022", (Workload, Multiple [".spec.containers[].securityContext.capabilities.add"]));
    ("KSV023", (Workload, Multiple [".spec.volumes[].hostPath"]));
    ("KSV024", (Workload, Multiple
      [".spec.containers[].ports[].hostPort";
       ".spec.initContainers[].ports[].hostPort"]));
    ("KSV025", (Workload, Multiple
      [".spec.securityContext.seLinuxOptions";
       ".spec.containers[].securityContext.seLinuxOptions"]));
    ("KSV026", (Workload, Multiple [".spec.securityContext.sysctls[]"]));
    ("KSV027", (Workload, Multiple
      [".spec.containers[].securityContext.procMount";
       ".spec.initContainers[].securityContext.procMount"]));
    ("KSV028", (Workload, Multiple [".spec.volumes[]"]));
    ("KSV116", (Workload, Multiple
      [".spec.securityContext.fsGRoup";
       ".spec.securityContext.supplementalGroups";
       ".spec.securityContext.runAsGroup";
       ".spec.containers[].securityContext.runAsGroup"]));
    ("KSV030", (Workload, Multiple
      [".spec.securityContext.seccompProfile.type";
       ".spec.containers[].securityContext.seccompProfile.type";
       ".metadata.annotations[seccomp.security.alpha.kubernetes.io/pod"]));
    ("KSV032", (Workload, Multiple
      [".spec.containers[].image";
       ".spec.containers[].name"]));
    ("KSV033", (Workload, Multiple
      [".spec.containers[].image";
       ".spec.containers[].name"]));
    ("KSV034", (Workload, Multiple [".spec.containers[].image"]));
    ("KSV035", (Workload, Multiple
      [".spec.containers[].image";
       ".spec.containers[].name"]));
    ("KSV036", (Workload, Multiple
      [".spec.automountServiceAccountToken";
       ".automountServiceAccountToken";
       ".spec.containers[].volumeMounts[].mountPath"]));
    ("KSV037", (Workload, Multiple [".metadata.namespace"]));
    ("KSV038", (Network, Multiple
      ["NetworkPolicy.spec.podSelector";
       ".spec.podSelector";
       "NetworkPolicy.spec.podSelector.matchLabels";
       "NetworkPolicy.ingress[].from[].namespaceSelector";
       "NetworkPolicy.ingress[].from[].podSelector";
       "NetworkPolicy.egress[].from[].namespaceSelector";
       "NetworkPolicy.egress[].from[].podSelector";
       "NetworkPolicy.spec.policyTypes[]"]));
    ("KSV039", (Reliability, Multiple
      ["LimitRange.metadata.namespace";
       "LimitRange.spec.limits[].type";
       "LimitRange.spec.limits[].max";
       "LimitRange.spec.limits[].min";
       "LimitRange.spec.limits[].default";
       "LimitRange.spec.limits[].defaultRequest"]));
    ("KSV040", (Reliability, Multiple
      ["ResourceQuota.metadata.namespace";
       "ResourceQuota.spec.hard.requests.cpu";
       "ResourceQuota.spec.hard.requests.memory";
       "ResourceQuota.spec.hard.limits.cpu";
       "ResourceQuota.spec.hard.limits.memory";
       "ResourceQuota.spec.hard.limits[].defaultRequest"]));
    ("KSV041", (IAM, Multiple
      ["ClusterRole.rules[].resources";
       "ClusterRole.rules[].verbs";
       "Role.rules[].resources";
       "Role.rules[].verbs"]));
    ("KSV042", (IAM, Multiple
      ["ClusterRole.rules[].apiGroups";
       "ClusterRole.rules[].resources";
       "ClusterRole.rules[].verbs";
       "Role.rules[].apiGroups";
       "Role.rules[].resources";
       "Role.rules[].verbs"]));
    ("KSV043", (IAM, Multiple
      ["ClusterRole.rules[].apiGroups";
       "ClusterRole.rules[].resources";
       "ClusterRole.rules[].verbs";
       "Role.rules[].apiGroups";
       "Role.rules[].resources";
       "Role.rules[].verbs"]));
    ("KSV044", (IAM, Multiple
      ["ClusterRole.rules[].resources";
       "ClusterRole.rules[].verbs";
       "Role.rules[].resources";
       "Role.rules[].verbs"]));
    ("KSV045", (IAM, Multiple
      ["ClusterRole.rules[].resources";
       "ClusterRole.rules[].verbs";
       "Role.rules[].resources";
       "Role.rules[].verbs"]));
    ("KSV046", (IAM, Multiple
      ["ClusterRole.rules[].resources";
       "ClusterRole.rules[].verbs";
       "Role.rules[].resources";
       "Role.rules[].verbs"]));
    ("KSV047", (IAM, Multiple
      ["ClusterRole.rules[].resources";
       "ClusterRole.rules[].verbs";
       "Role.rules[].resources";
       "Role.rules[].verbs"]));
    ("KSV048", (IAM, Multiple
      ["ClusterRole.rules[].resources";
       "ClusterRole.rules[].verbs";
       "Role.rules[].resources";
       "Role.rules[].verbs"]));
    ("KSV049", (IAM, Multiple
      ["ClusterRole.rules[].resources";
       "ClusterRole.rules[].verbs";
       "Role.rules[].resources";
       "Role.rules[].verbs"]));
    ("KSV050", (IAM, Multiple
      ["ClusterRole.rules[].resources";
       "ClusterRole.rules[].verbs";
       "Role.rules[].resources";
       "Role.rules[].verbs"]));
    ("KSV051", (IAM, Multiple
      ["ClusterRole.rules[].apiGroups";
       "ClusterRole.rules[].resources";
       "ClusterRole.rules[].verbs";
       "ClusterRole.rules[].resourceNames";
       "Role.rules[].apiGroups";
       "Role.rules[].resources";
       "Role.rules[].verbs";
       "Role.rules[].resourceNames"]));
    ("KSV052", (IAM, Multiple
      ["ClusterRole.rules[].apiGroups";
       "ClusterRole.rules[].resources";
       "ClusterRole.rules[].verbs";
       "ClusterRole.rules[].resourceNames";
       "Role.rules[].apiGroups";
       "Role.rules[].resources";
       "Role.rules[].verbs";
       "Role.rules[].resourceNames"]));
    ("KSV053", (IAM, Multiple
      ["ClusterRole.rules[].apiGroups";
       "ClusterRole.rules[].resources";
       "ClusterRole.rules[].verbs";
       "Role.rules[].apiGroups";
       "Role.rules[].resources";
       "Role.rules[].verbs"]));
    ("KSV054", (IAM, Multiple
      ["ClusterRole.rules[].apiGroups";
       "ClusterRole.rules[].resources";
       "ClusterRole.rules[].verbs";
       "Role.rules[].apiGroups";
       "Role.rules[].resources";
       "Role.rules[].verbs"]));
    ("KSV055", (IAM, Multiple
      ["ClusterRole.rules[].apiGroups";
       "ClusterRole.rules[].resources";
       "ClusterRole.rules[].verbs";
       "Role.rules[].apiGroups";
       "Role.rules[].resources";
       "Role.rules[].verbs"]));
    ("KSV056", (IAM, Multiple
      ["ClusterRole.rules[].resources";
       "ClusterRole.rules[].verbs";
       "Role.rules[].resources";
       "Role.rules[].verbs"]));
    ("KSV102", (Workload, Multiple
      [".metadata.name";
       ".spec.containers[].image"]));
    ("KSV104", (Workload, Multiple
      [".spec.securityContext.seccompProfile.type";
       ".spec.containers[].securityContext.seccompProfile.type";
       ".metadata.annotations[seccomp.security.alpha.kubernetes.io/pod"]));
    ("KSV105", (AdmissionControl, Multiple
      [".spec.securityContext.runAsUser";
       ".spec.containers[].securityContext.runAsUser"]));
    ("KSV106", (AdmissionControl, Multiple
      [".spec.containers[].securityContext.capabilities.drop";
       ".spec.containers[].securityContext.capabilities.add"]));
    ("KSV111", (IAM, Multiple
      ["ClusterRoleBinding.roleRef.name";
       "RoleBinding.roleRef.name"]));
    ("KSV112", (IAM, Multiple
      ["ClusterRole.rules[].apiGroups";
       "ClusterRole.rules[].resources";
       "ClusterRole.rules[].verbs";
       "Role.rules[].apiGroups";
       "Role.rules[].resources";
       "Role.rules[].verbs"]));
    ("KSV113", (IAM, Multiple
      ["ClusterRole.rules[].apiGroups";
       "ClusterRole.rules[].resources";
       "ClusterRole.rules[].verbs";
       "Role.rules[].apiGroups";
       "Role.rules[].resources";
       "Role.rules[].verbs"]));
    ("KSV119", (Workload, Multiple [".spec.containers[].securityContext.capabilities.add"]));
    ("KSV120", (Workload, Multiple [".spec.containers[].securityContext.capabilities.add"]));
    ("KSV121", (Workload, Multiple [".spec.volumes[].hostPath.path"]));
    ("AVD-KSV-0109", (DataSecurity, Multiple ["ConfigMap.data"]));
    ("AVD-KSV-01010", (DataSecurity, Multiple ["ConfigMap.data"]))
  ].

Definition CHECK_MAPPING : gmap string (CheckCategory * paths) :=
  list_to_map CHECK_MAPPING_items.

(** ** The scanner *)

Definition NAME : string := "trivy".

(** [Scanner.get_checked_path], reading the table [mapping]. *)
Definition get_checked_path_in (mapping : gmap string (CheckCategory * paths))
    (check_id : string) : M string :=
  let paths :=
    match mapping !! check_id with
    | Some (_, paths) => paths
    | None => Absent
    end in
  match paths with
  | Single p => ret p
  | Multiple ps => ret (Py.join "|" ps)
  | Absent =>
      let* _ := warning (NAME +:+ " check '" +:+ check_id +:+ "' not found in the mapping") in
      ret ""
  end.

Definition get_checked_path : string -> M string :=
  get_checked_path_in CHECK_MAPPING.

(** [check_id_pattern = re.compile(r"^(\w+(?:-\d+)+)")], with
    [group_pattern] for the repeated [-\d+]; the leading [^] is handled by
    [Re.search_anchored], and group 1 spans the whole match. *)
Definition group_pattern : Re.regex :=
  Re.Seq (Re.Chr "-"%char) (Re.Plus (Re.Class Re.is_digit)).

Definition check_id_pattern : Re.regex :=
  Re.Seq (Re.Plus (Re.Class Re.is_word)) (Re.Plus group_pattern).

(** The pattern in words: a non-empty run of word characters followed by
    one or more groups, each a [-] and a non-empty run of digits.  A run
    is the text of one or more characters of the class. *)
Definition char_of (p : N -> bool) (u : list ascii) : Prop :=
  exists cp, Re.decode_char u = Some (cp, []) /\ p cp = true.

Definition char_run (p : N -> bool) (u : list ascii) : Prop :=
  exists us, u = concat us /\ us <> [] /\ Forall (char_of p) us.

Definition digit_group (g : list ascii) : Prop :=
  exists d, g = "-"%char :: d /\ char_run Re.is_digit d.

Definition check_id_token (t : list ascii) : Prop :=
  exists w gs,
    t = w ++ concat gs /\
    char_run Re.is_word w /\
    gs <> [] /\ Forall digit_group gs.

(** [m = check_id_pattern.search(obj_name)];
    [check_id = m.group(1) if m is not None else None]. *)
Definition extract_check_id (obj_name : string) : option string :=
  Re.search_anchored check_id_pattern obj_name.

(** [CheckStatus.Alert if status == "FAIL" else CheckStatus.Pass]. *)
Definition translate_status (status : string) : CheckStatus :=
  if decide (status = "FAIL") then Alert else Pass.

(** The raw scan output, typed as the scanner's JSON: a finding is a dict
    of strings; a file entry and the top-level object are dicts whose
    members may be missing. *)
Record RawFileResult : Type := {
  Target : option string;
  Misconfigurations : option (list (gmap string string))
}.

Record RawResults : Type := {
  Results : option (list RawFileResult)
}.

(** The body of the inner loop of [parse_results]. *)
Definition parse_misconfig (result : RawFileResult) (misconfig : gmap string string)
    : M CheckResult :=
  let* target := member "Target" (Target result) in
  let obj_name := Py.stem target in
  let check_id := extract_check_id obj_name in
  let* status_v := subscript misconfig "Status" in
  let status := translate_status status_v in
  let* id := subscript misconfig "ID" in
  let* checked_path := get_checked_path id in
  let* scanner_check_id := subscript misconfig "ID" in
  let* scanner_check_name := subscript misconfig "Title" in
  let* severity := subscript misconfig "Severity" in
  let* details := subscript misconfig "Description" in
  let* extra := subscript misconfig "Message" in
  ret {| check_id := check_id;
         obj_name := obj_name;
         scanner_check_id := scanner_check_id;
         scanner_check_name := scanner_check_name;
         checked_path := checked_path;
         severity := severity;
         got := status;
         details := details;
         extra := extra |}.

(** [for misconfig in result.get("Misconfigurations", [])], appending to
    [check_results]. *)
Fixpoint misconfig_loop (result : RawFileResult) (misconfigs : list (gmap string string))
    (check_results : list CheckResult) : M (list CheckResult) :=
  match misconfigs with
  | [] => ret check_results
  | misconfig :: rest =>
      let* r := parse_misconfig result misconfig in
      misconfig_loop result rest (check_results ++ [r])
  end.

(** [for result in results["Results"]]. *)
Fixpoint result_loop (results : list RawFileResult) (check_results : list CheckResult)
    : M (list CheckResult) :=
  match results with
  | [] => ret check_results
  | result :: rest =>
      let* check_results' :=
        misconfig_loop result (default [] (Misconfigurations result)) check_results in
      result_loop rest check_results'
  end.

(** [Scanner.parse_results]. *)
Definition parse_results (results : RawResults) : M (list CheckResult) :=
  let* rs := member "Results" (Results results) in
  result_loop rs [].

(** [Scanner.get_version], as a function of the text [raw_version] that
    [super().get_version()] returns. *)
Definition get_version (raw_version : string) : M string :=
  match Py.split "010"%char raw_version with
  | version_line :: _ =>
      match Py.split " "%char version_line with
      | [label; version] => ret version
      | _ => raise ValueError
      end
  | [] => raise ValueError
  end.

(** ** Vocabulary of the statements *)

(** The table lookup of [get_checked_path] without the effects: the
    string it returns and the records it logs. *)
Definition mapped_paths (mapping : gmap string (CheckCategory * paths))
    (check_id : string) : paths :=
  match mapping !! check_id with
  | Some (_, paths) => paths
  | None => Absent
  end.

Definition rendered_path (mapping : gmap string (CheckCategory * paths))
    (check_id : string) : string :=
  match mapped_paths mapping check_id with
  | Single p => p
  | Multiple ps => Py.join "|" ps
  | Absent => ""
  end.

Definition unmapped_warning (check_id : string) : log_record :=
  Warning ("trivy check '" +:+ check_id +:+ "' not found in the mapping").

Definition diagnostics (mapping : gmap string (CheckCategory * paths))
    (check_id : string) : list log_record :=
  match mapped_paths mapping check_id with
  | Absent => [unmapped_warning check_id]
  | _ => []
  end.

(** Whether the character [c] occurs in [s]. *)
Fixpoint occurs (c : ascii) (s : string) : bool :=
  match s with
  | EmptyString => false
  | String c' s' => Ascii.eqb c' c || occurs c s'
  end.

(** The keys of a finding that [parse_results] subscripts. *)
Definition required_keys : list string :=
  ["Status"; "ID"; "Title"; "Severity"; "Description"; "Message"].

Definition has_key (key : string) (d : gmap string string) : bool :=
  bool_decide (is_Some (d !! key)).

Definition has_keys (misconfig : gmap string string) : bool :=
  forallb (fun key => has_key key misconfig) required_keys.

(** The findings of a file entry: [result.get("Misconfigurations", [])]. *)
Definition findings (result : RawFileResult) : list (gmap string string) :=
  default [] (Misconfigurations result).

(** A file entry can be read when it has no finding, or has a target and
    every finding has the required keys. *)
Definition readable_result (result : RawFileResult) : bool :=
  match findings result with
  | [] => true
  | ms => bool_decide (is_Some (Target result)) && forallb has_keys ms
  end.

Definition readable (rs : list RawFileResult) : bool := forallb readable_result rs.

(** The findings of all file entries in encounter order: file order, then
    the order of the findings of each file. *)
Definition encounter (rs : list RawFileResult)
    : list (RawFileResult * gmap string string) :=
  result ← rs; misconfig ← findings result; [(result, misconfig)].

(** The record [r] is the one that the finding [misconfig] of the file
    entry [result] gives rise to. *)
Definition record_of (result : RawFileResult) (misconfig : gmap string string)
    (r : CheckResult) : Prop :=
  (exists target,
     Target result = Some target /\
     obj_name r = Py.stem target /\
     check_id r = extract_check_id (Py.stem target)) /\
  misconfig !! "ID" = Some (scanner_check_id r) /\
  misconfig !! "Title" = Some (scanner_check_name r) /\
  misconfig !! "Severity" = Some (severity r) /\
  misconfig !! "Description" = Some (details r) /\
  misconfig !! "Message" = Some (extra r) /\
  (exists status, misconfig !! "Status" = Some status /\ got r = translate_status status) /\
  checked_path r = rendered_path CHECK_MAPPING (scanner_check_id r).

(** The words of a line, delimited by white space. *)
Definition whitespace_tokens (line : string) : list string := String.words line.

(** The text of [s] before the first occurrence of [c] (all of [s] if
    there is none), and the text after it (empty if there is none). *)
Fixpoint before_char (c : ascii) (s : string) : string :=
  match s with
  | EmptyString => EmptyString
  | String c' s' => if Ascii.eqb c' c then EmptyString else String c' (before_char c s')
  end.

Fixpoint after_char (c : ascii) (s : string) : string :=
  match s with
  | EmptyString => EmptyString
  | String c' s' => if Ascii.eqb c' c then s' else after_char c s'
  end.

Fixpoint count_char (c : ascii) (s : string) : nat :=
  match s with
  | EmptyString => 0
  | String c' s' => (if Ascii.eqb c' c then 1 else 0) + count_char c s'
  end.


(** ** Sample inputs *)

Definition sample_finding : gmap string string :=
  {[ "ID" := "KSV017"; "Title" := "Privileged"; "Status" := "FAIL";
     "Severity" := "HIGH"; "Description" := "d"; "Message" := "m" ]}.

(** A finding whose severity, description and message are empty. *)
Definition sample_empty_fields : gmap string string :=
  {[ "ID" := "KSV017"; "Title" := "Privileged container"; "Status" := "PASS";
     "Severity" := ""; "Description" := ""; "Message" := "" ]}.

(** A finding of a rule that the table does not have. *)
Definition sample_unmapped : gmap string string :=
  {[ "ID" := "KSV999"; "Title" := "Unknown"; "Status" := "WARN";
     "Severity" := "LOW"; "Description" := "x"; "Message" := "y" ]}.

Definition sample_files : list RawFileResult :=
  [ {| Target := Some "manifests/POD-001-test.yaml";
       Misconfigurations := Some [sample_finding; sample_unmapped] |};
    {| Target := Some "manifests/empty.yaml"; Misconfigurations := None |};
    {| Target := Some "KSV017-test.yaml";
       Misconfigurations := Some [sample_empty_fields] |} ].

Definition sample_results : RawResults := {| Results := Some sample_files |}.

(** A file entry without a target and without findings. *)
Definition sample_bare_file : RawFileResult :=
  {| Target := None; Misconfigurations := None |}.

(** A file entry without a target that has a finding. *)
Definition sample_untargeted_file : RawFileResult :=
  {| Target := None; Misconfigurations := Some [sample_finding] |}.


Definition one_finding (misconfig : gmap string string) : RawResults :=
  {| Results := Some
       [ {| Target := Some "KSV017-test.yaml";
            Misconfigurations := Some [misconfig] |} ] |}.

Definition sample_record (check_id : option string) (obj_name : string)
    (misconfig_id title path sev : string) (status : CheckStatus)
    (descr msg : string) : CheckResult :=
  {| check_id := check_id; obj_name := obj_name; scanner_check_id := misconfig_id;
     scanner_check_name := title; checked_path := path; severity := sev;
     got := status; details := descr; extra := msg |}.

(** What [parse_results] gives for [sample_results]. *)
Definition sample_out : list CheckResult :=
  [ sample_record (Some "POD-001") "POD-001-test" "KSV017" "Privileged"
      ".spec.containers[].securityContext.privileged" "HIGH" Alert "d" "m";
    sample_record (Some "POD-001") "POD-001-test" "KSV999" "Unknown"
      "" "LOW" Pass "x" "y";
    sample_record None "KSV017-test" "KSV017" "Privileged container"
      ".spec.containers[].securityContext.privileged" "" Pass "" "" ].

Definition sample_log : list log_record :=
  [ Warning "trivy check 'KSV999' not found in the mapping" ].

(** ** Vocabulary of the further properties *)

(** The first key that the loop body finds missing, in the order in which
    the body subscripts: the target of the file entry, then the keys of
    the finding. *)
Definition first_missing (result : RawFileResult) (misconfig : gmap string string)
    : option string :=
  match Target result with
  | None => Some "Target"
  | Some _ => List.find (fun key => negb (has_key key misconfig)) required_keys
  end.

Definition first_missing_key (rs : list RawFileResult) : option string :=
  head (omap (fun p => first_missing p.1 p.2) (encounter rs)).

(** The rule ids of the findings, in encounter order. *)
Definition finding_ids (rs : list RawFileResult) : list string :=
  omap (fun p => p.2 !! "ID") (encounter rs).

Definition unmapped (check_id : string) : bool :=
  bool_decide (CHECK_MAPPING !! check_id = None).

(** A table item whose second component is a non-empty list of non-empty
    paths, none of which contains the delimiter. *)
Definition item_well_formed (item : string * (CheckCategory * paths)) : bool :=
  match item.2.2 with
  | Multiple (p :: ps) =>
      forallb (fun p => negb (occurs "|" p) && negb (String.eqb p "")) (p :: ps)
  | _ => false
  end.

(** Whether [s] starts with a [-] and a digit, the start of one more
    group of the pattern. *)
Definition starts_group (s : list ascii) : bool :=
  match s with
  | c :: s' => Ascii.eqb "-" c && Re.first_is Re.is_digit s'
  | [] => false
  end.



(** The warnings that [get_checked_path] logs for a list of rule ids: one
    for each id that the table does not have, in the order of the list. *)
Definition unmapped_warnings (ids : list string) : list log_record :=
  unmapped_warning <$> List.filter unmapped ids.

(** The rule ids of a list of findings with their file entries. *)
Definition ids_of (l : list (RawFileResult * gmap string string)) : list string :=
  omap (fun p => p.2 !! "ID") l.

(** The input in which every finding [m] is replaced by [f m]. *)
Definition map_findings (f : gmap string string -> gmap string string)
    (results : RawResults) : RawResults :=
  {| Results :=
       fmap (M := list)
         (fun result =>
            {| Target := Target result;
               Misconfigurations := fmap (M := list) f <$> Misconfigurations result |})
       <$> Results results |}.

(** * Properties *)

(** ** Characters *)

Lemma tail_split k :
  forall acc s cp s', Re.tail k acc s = Some (cp, s') ->
    exists u, s = u ++ s' /\ length u = k /\ Re.tail k acc u = Some (cp, []).
Proof.
  induction k as [|k IH]; intros acc s cp s' H; simpl in H.
  - injection H as -> ->. by exists [].
  - destruct s as [|b s]; [done|].
    destruct (Re.continuation b) as [c|] eqn:Hb; [|done].
    destruct (IH _ _ _ _ H) as (u & -> & Hlen & Hu).
    exists (b :: u). repeat split; [by simpl; f_equal|]. simpl. by rewrite Hb.
Qed.

Lemma tail_app k :
  forall acc u cp rest, Re.tail k acc u = Some (cp, []) ->
    Re.tail k acc (u ++ rest) = Some (cp, rest).
Proof.
  induction k as [|k IH]; intros acc u cp rest H; simpl in H.
  - by injection H as -> ->.
  - destruct u as [|b u]; [done|]. simpl.
    destruct (Re.continuation b) as [c|]; [|done]. by apply IH.
Qed.

Lemma decode_char_split s cp s' :
  Re.decode_char s = Some (cp, s') ->
  exists u, s = u ++ s' /\ u <> [] /\ Re.decode_char u = Some (cp, []).
Proof.
  unfold Re.decode_char. destruct s as [|b s1]; [done|].
  destruct (Re.lead b) as [[[[k v] lo] hi]|] eqn:Hlead; [|done].
  destruct (Re.tail k v s1) as [[cp' s'']|] eqn:Htail; [|done].
  destruct ((lo <=? cp')%N && (cp' <=? hi)%N && negb (Re.surrogate cp')) eqn:Hok;
    [|done].
  intros [= -> ->]. destruct (tail_split _ _ _ _ _ Htail) as (u & -> & _ & Hu).
  exists (b :: u). repeat split; [done|]. by rewrite Hlead, Hu, Hok.
Qed.

Lemma decode_char_app u cp rest :
  Re.decode_char u = Some (cp, []) -> Re.decode_char (u ++ rest) = Some (cp, rest).
Proof.
  unfold Re.decode_char. destruct u as [|b u]; [done|]. simpl.
  destruct (Re.lead b) as [[[[k v] lo] hi]|]; [|done].
  destruct (Re.tail k v u) as [[cp' s'']|] eqn:Htail; [|done].
  destruct ((lo <=? cp')%N && (cp' <=? hi)%N && negb (Re.surrogate cp')) eqn:Hok;
    [|done].
  intros [= -> ->]. by rewrite (tail_app _ _ _ _ rest Htail), Hok.
Qed.

Lemma decode_char_length s cp s' :
  Re.decode_char s = Some (cp, s') -> length s' < length s.
Proof.
  intros (u & -> & Hu & _)%decode_char_split.
  rewrite length_app. destruct u; [done|]. simpl. lia.
Qed.

Lemma decode_char_dash s : Re.decode_char ("-"%char :: s) = Some (45%N, s).
Proof. reflexivity. Qed.

(** ** The backtracking matcher against the language of a regex *)

Lemma matches_nonempty r u : Re.matches r u -> u <> [].
Proof.
  induction 1 as [c|p u cp Hu Hp|r1 r2 u v _ IHu _ _|r u _ IHu|r u v _ IHu _ _];
    try done; [by destruct u|by intros [? _]%app_eq_nil..].
Qed.

Lemma plus_loop_sound step r n :
  (forall s rest, rest ∈ step s -> exists u, s = u ++ rest /\ Re.matches r u) ->
  forall s rest, rest ∈ Re.plus_loop step n s ->
    exists u, s = u ++ rest /\ Re.matches (Re.Plus r) u.
Proof.
  intros Hstep. induction n as [|n IH]; intros s rest Hin; simpl in Hin.
  - by apply not_elem_of_nil in Hin.
  - apply list_elem_of_bind in Hin as (s1 & Hin & Hs1).
    destruct (Hstep _ _ Hs1) as (u & -> & Hu).
    apply elem_of_app in Hin as [Hin|Hin].
    + destruct (IH _ _ Hin) as (v & -> & Hv).
      exists (u ++ v). split; [by rewrite <- app_assoc|by apply Re.m_plus_more].
    + apply list_elem_of_singleton in Hin as ->.
      exists u. split; [done|by apply Re.m_plus_one].
Qed.

Lemma rmatch_class p s :
  Re.rmatch (Re.Class p) s =
  match Re.decode_char s with
  | Some (cp, s') => if p cp then [s'] else []
  | None => []
  end.
Proof. reflexivity. Qed.

Lemma rmatch_sound r :
  forall s rest, rest ∈ Re.rmatch r s -> exists u, s = u ++ rest /\ Re.matches r u.
Proof.
  induction r as [c|p|r1 IH1 r2 IH2|r IH]; intros s rest Hin.
  - simpl in Hin. destruct s as [|c' s]; [by apply not_elem_of_nil in Hin|].
    destruct (Ascii.eqb_spec c c') as [<-|]; [|by apply not_elem_of_nil in Hin].
    apply list_elem_of_singleton in Hin as ->. exists [c]. split; [done|constructor].
  - rewrite rmatch_class in Hin.
    destruct (Re.decode_char s) as [[cp s']|] eqn:Hs;
      [|by apply not_elem_of_nil in Hin].
    destruct (p cp) eqn:Hp; [|by apply not_elem_of_nil in Hin].
    apply list_elem_of_singleton in Hin as ->.
    destruct (decode_char_split _ _ _ Hs) as (u & -> & _ & Hu).
    exists u. split; [done|by econstructor].
  - simpl in Hin. apply list_elem_of_bind in Hin as (s1 & Hin & Hs1).
    destruct (IH1 _ _ Hs1) as (u & -> & Hu), (IH2 _ _ Hin) as (v & -> & Hv).
    exists (u ++ v). split; [by rewrite <- app_assoc|by constructor].
  - exact (plus_loop_sound (Re.rmatch r) r (S (length s)) IH s rest Hin).
Qed.

Lemma plus_loop_mono step n m s rest :
  n <= m -> rest ∈ Re.plus_loop step n s -> rest ∈ Re.plus_loop step m s.
Proof.
  revert m s. induction n as [|n IH]; intros m s Hle Hin; simpl in Hin.
  - by apply not_elem_of_nil in Hin.
  - destruct m as [|m]; [lia|]. simpl.
    apply list_elem_of_bind in Hin as (s1 & Hin & Hs1).
    apply list_elem_of_bind. exists s1. split; [|done].
    apply elem_of_app in Hin as [Hin|Hin]; apply elem_of_app; [left|by right].
    apply IH; [lia|done].
Qed.

Lemma rmatch_complete r u :
  Re.matches r u -> forall rest, rest ∈ Re.rmatch r (u ++ rest).
Proof.
  induction 1 as [c|p u cp Hu Hp|r1 r2 u v _ IHu _ IHv|r u _ IHu|r u v Hu IHu _ IHv];
    intros rest.
  - simpl. rewrite Ascii.eqb_refl. by apply list_elem_of_singleton.
  - rewrite rmatch_class, (decode_char_app _ _ rest Hu), Hp.
    by apply list_elem_of_singleton.
  - simpl. apply list_elem_of_bind. exists (v ++ rest). split; [apply IHv|].
    rewrite <- app_assoc. apply IHu.
  - simpl. apply list_elem_of_bind. exists rest. split; [|apply IHu].
    apply elem_of_app. right. by apply list_elem_of_singleton.
  - simpl. apply list_elem_of_bind. exists (v ++ rest). split.
    + apply elem_of_app. left.
      apply plus_loop_mono with (n := S (length (v ++ rest))); [|apply IHv].
      apply matches_nonempty in Hu. destruct u; [done|].
      rewrite <- app_assoc. simpl. rewrite !length_app. lia.
    + rewrite <- app_assoc. apply IHu.
Qed.

(** ** Order of the alternatives: the first match is the longest *)

Lemma plus_loop_S step n s :
  Re.plus_loop step (S n) s = step s ≫= fun s1 => Re.plus_loop step n s1 ++ [s1].
Proof. reflexivity. Qed.

Lemma plus_class_first p n :
  forall s, length s < n ->
    match Re.plus_loop (Re.rmatch (Re.Class p)) n s with
    | [] => Re.first_is p s = false
    | x :: tl =>
        Re.first_is p s = true /\ Re.first_is p x = false /\ length x < length s /\
        Forall (fun y => Re.first_is p y = true /\ length x <= length y) tl
    end.
Proof.
  induction n as [|n IH]; intros s Hlen; [lia|].
  rewrite plus_loop_S, rmatch_class. unfold Re.first_is at 1 2.
  destruct (Re.decode_char s) as [[cp s']|] eqn:Hs; [|done].
  destruct (p cp) eqn:Hp; [|done].
  rewrite bind_singleton.
  pose proof (decode_char_length _ _ _ Hs) as Hs'.
  specialize (IH s' ltac:(lia)).
  destruct (Re.plus_loop _ n s') as [|x tl]; simpl.
  - repeat split; [done|lia|constructor].
  - destruct IH as (Hfirst & Hx & Hxs & Htl).
    repeat split; [done|lia|].
    apply Forall_app. split.
    + eapply Forall_impl; [exact Htl|]. intros y [? ?]. split; [done|lia].
    + constructor; [split; [done|lia]|constructor].
Qed.

Lemma bind_all_nil {A B} (f : A -> list B) (l : list A) :
  Forall (fun y => f y = []) l -> l ≫= f = [].
Proof.
  induction 1 as [|y l Hy _ IH]; [done|].
  by rewrite bind_cons, Hy, IH.
Qed.

Lemma bind_all_self {A} (f : A -> list A) (l : list A) :
  Forall (fun y => f y = [y]) l -> l ≫= f = l.
Proof.
  induction 1 as [|y l Hy _ IH]; [done|].
  by rewrite bind_cons, Hy, IH.
Qed.

Lemma rmatch_group s :
  Re.rmatch group_pattern s =
  match s with
  | c :: s' =>
      if Ascii.eqb "-" c
      then Re.plus_loop (Re.rmatch (Re.Class Re.is_digit)) (S (length s')) s'
      else []
  | [] => []
  end.
Proof.
  destruct s as [|c s]; [done|].
  change (Re.rmatch group_pattern (c :: s))
    with ((if Ascii.eqb "-" c then [s] else []) ≫=
          Re.rmatch (Re.Plus (Re.Class Re.is_digit))).
  destruct (Ascii.eqb "-" c); [|done].
  by rewrite bind_singleton.
Qed.

Lemma rmatch_check_id_pattern s :
  Re.rmatch check_id_pattern s =
  Re.plus_loop (Re.rmatch (Re.Class Re.is_word)) (S (length s)) s ≫=
  fun s1 => Re.plus_loop (Re.rmatch group_pattern) (S (length s1)) s1.
Proof. reflexivity. Qed.

Lemma groups_fail n s :
  Re.first_byte_is "-" s = false ->
  Re.plus_loop (Re.rmatch group_pattern) n s = [].
Proof.
  intros Hs. destruct n as [|n]; [done|].
  rewrite plus_loop_S, rmatch_group.
  destruct s as [|c s]; [done|]. cbn [Re.first_byte_is] in Hs. by rewrite Hs.
Qed.

Lemma first_is_dash p s :
  p 45%N = false -> Re.first_is p s = true -> Re.first_byte_is "-" s = false.
Proof.
  intros Hp. destruct s as [|c s]; [done|]. cbn [Re.first_byte_is].
  destruct (Ascii.eqb_spec "-" c) as [<-|]; [|done].
  unfold Re.first_is. rewrite decode_char_dash. by rewrite Hp.
Qed.

Lemma digit_not_dash s :
  Re.first_is Re.is_digit s = true -> Re.first_byte_is "-" s = false.
Proof. apply first_is_dash. by vm_compute. Qed.

Lemma word_not_dash s :
  Re.first_is Re.is_word s = true -> Re.first_byte_is "-" s = false.
Proof. apply first_is_dash. by vm_compute. Qed.

Lemma groups_first n :
  forall s, length s < n ->
    match Re.plus_loop (Re.rmatch group_pattern) n s with
    | [] => True
    | x :: tl => length x < length s /\ Forall (fun y => length x <= length y) tl
    end.
Proof.
  induction n as [|n IH]; intros s Hlen; [lia|].
  rewrite plus_loop_S, rmatch_group.
  destruct s as [|c s]; [done|].
  destruct (Ascii.eqb "-" c); [|done].
  pose proof (plus_class_first Re.is_digit (S (length s)) s ltac:(lia)) as Hd.
  destruct (Re.plus_loop _ (S (length s)) s) as [|r1 tl1]; [done|].
  destruct Hd as (_ & _ & Hr1 & Htl1).
  rewrite bind_cons.
  rewrite (bind_all_self _ tl1); cycle 1.
  { eapply Forall_impl; [exact Htl1|]. intros y [Hy _]. simpl.
    by rewrite groups_fail by by apply digit_not_dash. }
  cbn [length] in Hlen |- *.
  specialize (IH r1 ltac:(lia)).
  destruct (Re.plus_loop _ n r1) as [|x tl]; cbn [app].
  - split; [lia|]. eapply Forall_impl; [exact Htl1|]. by intros y [_ Hy].
  - destruct IH as [Hx Htl]. split; [lia|].
    rewrite !Forall_app. split; [split; [done|]|].
    + constructor; [lia|constructor].
    + eapply Forall_impl; [exact Htl1|]. intros y [_ Hy]. simpl in *. lia.
Qed.

Lemma pattern_first s :
  match Re.rmatch check_id_pattern s with
  | [] => True
  | x :: tl => Forall (fun y => length x <= length y) tl
  end.
Proof.
  rewrite rmatch_check_id_pattern.
  pose proof (plus_class_first Re.is_word (S (length s)) s ltac:(lia)) as Hw.
  destruct (Re.plus_loop _ (S (length s)) s) as [|w1 tl1]; [done|].
  destruct Hw as (_ & _ & _ & Htl1).
  rewrite bind_cons, (bind_all_nil _ tl1), app_nil_r; cycle 1.
  { eapply Forall_impl; [exact Htl1|]. intros y [Hy _].
    by apply groups_fail, word_not_dash. }
  pose proof (groups_first (S (length w1)) w1 ltac:(lia)) as Hg.
  destruct (Re.plus_loop _ (S (length w1)) w1) as [|x tl]; [done|].
  by destruct Hg.
Qed.

(** ** The pattern in words *)

Lemma matches_plus_iff r u :
  Re.matches (Re.Plus r) u <->
  exists us, u = concat us /\ us <> [] /\ Forall (Re.matches r) us.
Proof.
  split.
  - intros H. remember (Re.Plus r) as q eqn:Hq.
    induction H as [| | |r' u Hu _|r' u v Hu _ _ IHv]; try discriminate;
      injection Hq as ->.
    + exists [u]. simpl. rewrite app_nil_r. repeat split; [done|by repeat constructor].
    + destruct (IHv eq_refl) as (us & -> & _ & Hus).
      exists (u :: us). repeat split; [done|by constructor].
  - intros (us & -> & Hne & Hus).
    induction Hus as [|u us Hu Hus IH]; [done|].
    destruct us as [|u' us].
    + simpl. rewrite app_nil_r. by apply Re.m_plus_one.
    + apply Re.m_plus_more; [done|]. by apply IH.
Qed.

Lemma matches_class p u : Re.matches (Re.Class p) u <-> char_of p u.
Proof.
  unfold char_of. split.
  - intros H. inversion H; subst. eauto.
  - intros (cp & Hu & Hp). by econstructor.
Qed.

Lemma matches_class_plus p u :
  Re.matches (Re.Plus (Re.Class p)) u <-> char_run p u.
Proof.
  unfold char_run. rewrite matches_plus_iff.
  split; intros (us & -> & Hne & Hus); exists us; repeat split; try done;
    (eapply Forall_impl; [exact Hus|]); intros v; apply matches_class.
Qed.

Lemma matches_group g : Re.matches group_pattern g <-> digit_group g.
Proof.
  unfold digit_group, group_pattern. split.
  - intros H. inversion H as [| |r1 r2 u v Hu Hv| |]; subst.
    inversion Hu; subst. apply matches_class_plus in Hv.
    by exists v.
  - intros (d & -> & Hd).
    apply (Re.m_seq _ _ ["-"%char] d); [constructor|].
    by apply matches_class_plus.
Qed.

Lemma matches_check_id_pattern t :
  Re.matches check_id_pattern t <-> check_id_token t.
Proof.
  unfold check_id_token, check_id_pattern. split.
  - intros H. inversion H as [| |r1 r2 w v Hw Hv| |]; subst.
    apply matches_class_plus in Hw.
    apply matches_plus_iff in Hv as (gs & -> & ? & Hgs).
    exists w, gs. repeat split; try done.
    eapply Forall_impl; [exact Hgs|]. intros g. apply matches_group.
  - intros (w & gs & -> & ? & ? & Hgs).
    apply Re.m_seq; [by apply matches_class_plus|].
    apply matches_plus_iff. exists gs. repeat split; try done.
    eapply Forall_impl; [exact Hgs|]. intros g. apply matches_group.
Qed.

(** ** Strings and character lists *)

Lemma list_ascii_of_string_app s t :
  list_ascii_of_string (s +:+ t) = list_ascii_of_string s ++ list_ascii_of_string t.
Proof.
  induction s as [|c s IH]; [done|].
  change (String c s +:+ t) with (String c (s +:+ t)). simpl. by f_equal.
Qed.

Lemma string_of_list_ascii_app u v :
  string_of_list_ascii (u ++ v) = string_of_list_ascii u +:+ string_of_list_ascii v.
Proof.
  induction u as [|c u IH]; [done|].
  simpl. change (String c ?a +:+ ?b) with (String c (a +:+ b)). by f_equal.
Qed.

Lemma length_list_ascii_of_string s :
  length (list_ascii_of_string s) = String.length s.
Proof. induction s as [|c s IH]; [done|]. simpl. by f_equal. Qed.

(** ** The identifier extractor *)

Lemma search_anchored_Some r s t :
  Re.search_anchored r s = Some t ->
  exists rest tl,
    Re.rmatch r (list_ascii_of_string s) = list_ascii_of_string rest :: tl /\
    s = t +:+ rest /\ Re.matches r (list_ascii_of_string t).
Proof.
  unfold Re.search_anchored. intros H.
  destruct (Re.rmatch r (list_ascii_of_string s)) as [|rest tl] eqn:Hm; [done|].
  injection H as <-.
  destruct (rmatch_sound r (list_ascii_of_string s) rest) as (u & Hs & Hu).
  { rewrite Hm. by left. }
  rewrite Hs, length_app, Nat.add_sub, take_app_length.
  exists (string_of_list_ascii rest), tl.
  rewrite !list_ascii_of_string_of_list_ascii. split; [done|split; [|done]].
  by rewrite <- string_of_list_ascii_app, <- Hs, string_of_list_ascii_of_string.
Qed.

Lemma search_anchored_None r s :
  Re.search_anchored r s = None <->
  forall t rest, s = t +:+ rest -> ~ Re.matches r (list_ascii_of_string t).
Proof.
  unfold Re.search_anchored. split.
  - intros H t rest -> Ht.
    apply rmatch_complete with (rest := list_ascii_of_string rest) in Ht.
    rewrite <- list_ascii_of_string_app in Ht.
    destruct (Re.rmatch r _); [by apply not_elem_of_nil in Ht|done].
  - intros H.
    destruct (Re.rmatch r (list_ascii_of_string s)) as [|rest tl] eqn:Hm; [done|].
    destruct (rmatch_sound r (list_ascii_of_string s) rest) as (u & Hs & Hu).
    { rewrite Hm. by left. }
    destruct (H (string_of_list_ascii u) (string_of_list_ascii rest)).
    + by rewrite <- string_of_list_ascii_app, <- Hs, string_of_list_ascii_of_string.
    + by rewrite list_ascii_of_string_of_list_ascii.
Qed.

Lemma extract_check_id_longest s t :
  extract_check_id s = Some t ->
  forall t' rest', s = t' +:+ rest' ->
    check_id_token (list_ascii_of_string t') ->
    String.length t' <= String.length t.
Proof.
  intros H t' rest' Hs Ht'.
  apply search_anchored_Some in H as (rest & tl & Hm & Hst & _).
  apply matches_check_id_pattern in Ht'.
  apply rmatch_complete with (rest := list_ascii_of_string rest') in Ht'.
  rewrite <- list_ascii_of_string_app, <- Hs in Ht'.
  pose proof (pattern_first (list_ascii_of_string s)) as Hfirst.
  rewrite Hm in Ht', Hfirst.
  assert (length (list_ascii_of_string rest) <= length (list_ascii_of_string rest'))
    as Hle.
  { apply elem_of_cons in Ht' as [->|Hin]; [done|].
    rewrite Forall_forall in Hfirst. by apply Hfirst. }
  apply (f_equal String.length) in Hs, Hst.
  rewrite <- !length_list_ascii_of_string, !list_ascii_of_string_app, !length_app in *.
  lia.
Qed.

(** C1 (as stated): the claim gives ["KSV017"] for the object name
    ["KSV017-test"]; the pattern needs a digit after the [-], so the search
    finds no match there. *)
Lemma extract_check_id_KSV017_test :
  extract_check_id "KSV017-test" = None.
Proof. by vm_compute. Qed.

(** C1 (amended): the identifier extractor returns no id for
    ["KSV017-test"] and for ["deployment"], and ["POD-001"] for
    ["POD-001-test"]; word characters and digits are those of Unicode, so
    it returns ["café-1"] for ["café-1-test"], and the id that ends with an
    Arabic-Indic digit for the name that goes on with [x].  In general a
    returned id is a prefix of the object name made of a non-empty run of
    word characters followed by one or more groups of a [-] and a
    non-empty digit run, and it is the longest such prefix; no id is
    returned exactly when the object name has no such prefix. *)
Theorem extract_check_id_spec :
  extract_check_id "KSV017-test" = None /\
  extract_check_id "deployment" = None /\
  extract_check_id "POD-001-test" = Some "POD-001" /\
  extract_check_id "café-1-test" = Some "café-1" /\
  extract_check_id "a-1٠x" = Some "a-1٠" /\
  forall obj_name,
    match extract_check_id obj_name with
    | Some t =>
        (exists rest, obj_name = t +:+ rest) /\
        check_id_token (list_ascii_of_string t) /\
        (forall t' rest', obj_name = t' +:+ rest' ->
           check_id_token (list_ascii_of_string t') ->
           String.length t' <= String.length t)
    | None =>
        forall t rest, obj_name = t +:+ rest ->
          ~ check_id_token (list_ascii_of_string t)
    end.
Proof.
  do 5 (split; [by vm_compute|]).
  intros obj_name. destruct (extract_check_id obj_name) as [t|] eqn:H.
  - pose proof (extract_check_id_longest _ _ H) as Hlong.
    apply search_anchored_Some in H as (rest & _ & _ & Hs & Ht).
    split; [by exists rest|]. split; [by apply matches_check_id_pattern|done].
  - intros t rest Hs Ht. apply matches_check_id_pattern in Ht.
    revert Ht. by eapply search_anchored_None.
Qed.

(** ** The status translator *)

(** C4: the status translator gives [Alert] exactly for the status
    ["FAIL"] and [Pass] for every other string, among them ["PASS"], the
    empty string and ["WARN"]; there is no third outcome. *)
Theorem translate_status_binary :
  forall status,
    (translate_status status = Alert <-> status = "FAIL") /\
    (translate_status status = Pass <-> status <> "FAIL") /\
    (translate_status status = Alert \/ translate_status status = Pass) /\
    translate_status "FAIL" = Alert /\
    translate_status "PASS" = Pass /\
    translate_status "" = Pass /\
    translate_status "WARN" = Pass /\
    translate_status "fail" = Pass.
Proof.
  intros status. unfold translate_status.
  repeat split; try done; case_decide; intros; try done; auto.
Qed.

(** ** The path resolver *)

Lemma get_checked_path_in_eq mapping check_id log :
  get_checked_path_in mapping check_id log =
  (Returns (rendered_path mapping check_id), log ++ diagnostics mapping check_id).
Proof.
  unfold get_checked_path_in, rendered_path, diagnostics, mapped_paths.
  destruct (mapping !! check_id) as [[cat [p|ps|]]|];
    by rewrite ?app_nil_r.
Qed.

(** C5: for an id that the mapping table does not have, [get_checked_path]
    returns the empty string and logs exactly one warning; and for no
    string at all does the lookup raise. *)
Theorem get_checked_path_unmapped mapping check_id log :
  mapping !! check_id = None ->
  get_checked_path_in mapping check_id log =
    (Returns "", log ++ [Warning ("trivy check '" +:+ check_id +:+ "' not found in the mapping")]) /\
  (forall other log0, exists p log1,
     get_checked_path_in mapping other log0 = (Returns p, log1)).
Proof.
  intros Hnone. split.
  - rewrite get_checked_path_in_eq.
    unfold rendered_path, diagnostics, mapped_paths. by rewrite Hnone.
  - intros other log0. rewrite get_checked_path_in_eq. eauto.
Qed.

Lemma get_checked_path_unmapped_witness :
  get_checked_path "KSV999" [] =
    (Returns "", [Warning "trivy check 'KSV999' not found in the mapping"]) /\
  (forall other log0, exists p log1, get_checked_path other log0 = (Returns p, log1)).
Proof.
  apply (get_checked_path_unmapped CHECK_MAPPING "KSV999" []).
  by vm_compute.
Defined.

(** ** Splitting and joining *)

Lemma split_count_0 sep s : count_char sep s = 0 -> Py.split sep s = [s].
Proof.
  induction s as [|c s IH]; [done|]. simpl.
  destruct (Ascii.eqb c sep); [done|]. intros H. by rewrite IH.
Qed.

Lemma count_char_occurs sep s : count_char sep s = 0 <-> occurs sep s = false.
Proof.
  induction s as [|c s IH]; [done|]. simpl.
  destruct (Ascii.eqb c sep); [done|]. apply IH.
Qed.

Lemma split_app_sep sep s t :
  occurs sep s = false ->
  Py.split sep (s +:+ String sep t) = s :: Py.split sep t.
Proof.
  induction s as [|c s IH]; intros Hs.
  - change ("" +:+ String sep t) with (String sep t). simpl.
    by rewrite Ascii.eqb_refl.
  - change (String c s +:+ String sep t) with (String c (s +:+ String sep t)).
    simpl in *. destruct (Ascii.eqb c sep); [done|]. by rewrite IH.
Qed.

Lemma split_join sep ps :
  ps <> [] -> Forall (fun p => occurs sep p = false) ps ->
  Py.split sep (Py.join (String sep "") ps) = ps.
Proof.
  intros Hne Hps. induction Hps as [|p ps Hp Hps IH]; [done|].
  destruct ps as [|p' ps].
  - simpl. by apply split_count_0, count_char_occurs.
  - change (Py.join (String sep "") (p :: p' :: ps))
      with (p +:+ String sep (Py.join (String sep "") (p' :: ps))).
    rewrite split_app_sep by done. by rewrite IH.
Qed.

Lemma split_length sep s : length (Py.split sep s) = S (count_char sep s).
Proof.
  induction s as [|c s IH]; [done|]. simpl.
  destruct (Ascii.eqb c sep); simpl; [by rewrite IH|].
  destruct (Py.split sep s); simpl in *; lia.
Qed.

Lemma split_head sep s : head (Py.split sep s) = Some (before_char sep s).
Proof.
  induction s as [|c s IH]; [done|]. simpl.
  destruct (Ascii.eqb c sep); [done|].
  destruct (Py.split sep s); simpl in *; congruence.
Qed.

Lemma split_count_1 sep s :
  count_char sep s = 1 -> Py.split sep s = [before_char sep s; after_char sep s].
Proof.
  induction s as [|c s IH]; [done|]. simpl.
  destruct (Ascii.eqb c sep); simpl; intros H.
  - by rewrite split_count_0 by lia.
  - by rewrite IH.
Qed.

(** C6: for an id that the table maps to a list of paths,
    [get_checked_path] returns the paths joined with [|] in the order of
    the list and logs nothing (splitting the result at [|] gives the list
    back when no path contains a [|]); for an entry that stores one path
    as a string it returns that string unchanged. *)
Theorem get_checked_path_mapped mapping check_id category entry log :
  mapping !! check_id = Some (category, entry) ->
  match entry with
  | Multiple ps =>
      get_checked_path_in mapping check_id log = (Returns (Py.join "|" ps), log) /\
      (ps <> [] -> Forall (fun p => occurs "|" p = false) ps ->
       Py.split "|" (Py.join "|" ps) = ps)
  | Single p => get_checked_path_in mapping check_id log = (Returns p, log)
  | Absent => True
  end.
Proof.
  intros Hentry. rewrite get_checked_path_in_eq.
  unfold rendered_path, diagnostics, mapped_paths. rewrite Hentry.
  destruct entry as [p|ps|]; rewrite ?app_nil_r; [done| |done].
  split; [done|]. apply split_join.
Qed.

Lemma get_checked_path_mapped_witness :
  (get_checked_path_in {[ "X" := (Workload, Multiple ["a"; "b"]) ]} "X" [] =
     (Returns "a|b", []) /\
   Py.split "|" "a|b" = ["a"; "b"]) /\
  get_checked_path_in {[ "X" := (Workload, Single "a") ]} "X" [] = (Returns "a", []) /\
  get_checked_path "KSV012" [] =
    (Returns ".spec.securityContext.runAsNonRoot|.spec.containers[].securityContext.runAsNonRoot", []).
Proof.
  split; [|split].
  - destruct (get_checked_path_mapped
                {[ "X" := (Workload, Multiple ["a"; "b"]) ]} "X" Workload
                (Multiple ["a"; "b"]) []) as [Hjoin Hsplit].
    + by vm_compute.
    + split; [exact Hjoin|]. apply Hsplit; [done|]. by repeat constructor.
  - apply (get_checked_path_mapped
             {[ "X" := (Workload, Single "a") ]} "X" Workload (Single "a") []).
    by vm_compute.
  - apply (get_checked_path_mapped CHECK_MAPPING "KSV012" Workload
             (Multiple [".spec.securityContext.runAsNonRoot";
                        ".spec.containers[].securityContext.runAsNonRoot"]) []).
    by vm_compute.
Defined.

(** C9: the table entry of ["KSV002"] holds a list of one path, the two
    adjacent literals fused; [get_checked_path] returns that one string,
    which contains no [|]. *)
Theorem get_checked_path_KSV002 :
  let fused :=
    ".metadata.annotations.container.apparmor.security.beta.kubernetes.io"
    +:+ ".metadata.annotations[container.apparmor.security.beta.kubernetes.io]" in
  CHECK_MAPPING !! "KSV002" = Some (Workload, Multiple [fused]) /\
  (forall log, get_checked_path "KSV002" log = (Returns fused, log)) /\
  occurs "|" fused = false /\
  Py.split "|" fused = [fused].
Proof.
  intros fused.
  assert (CHECK_MAPPING !! "KSV002" = Some (Workload, Multiple [fused])) as Hentry
    by by vm_compute.
  split; [done|]. split; [|by vm_compute].
  intros log. unfold get_checked_path. rewrite get_checked_path_in_eq.
  unfold rendered_path, diagnostics, mapped_paths. rewrite Hentry.
  by rewrite app_nil_r.
Qed.

(** ** The version resolver *)

Lemma before_after_char c s :
  occurs c s = true -> s = before_char c s +:+ String c (after_char c s).
Proof.
  induction s as [|c' s IH]; [done|]. simpl.
  destruct (Ascii.eqb_spec c' c) as [->|]; simpl; [done|].
  intros H. change (String c' ?a +:+ ?b) with (String c' (a +:+ b)).
  by rewrite <- IH.
Qed.

Lemma get_version_eq raw log :
  get_version raw log =
  if count_char " " (before_char "010" raw) =? 1
  then (Returns (after_char " " (before_char "010" raw)), log)
  else (Raises ValueError, log).
Proof.
  unfold get_version.
  pose proof (split_head "010" raw) as Hhead.
  destruct (Py.split "010" raw) as [|version_line rest]; [done|].
  injection Hhead as ->.
  destruct (Nat.eqb_spec (count_char " " (before_char "010" raw)) 1) as [H1|H1].
  - by rewrite split_count_1.
  - pose proof (split_length " " (before_char "010" raw)) as Hlen.
    destruct (Py.split " " (before_char "010" raw)) as [|a [|b [|c l]]];
      simpl in Hlen; try done; lia.
Qed.

(** C7 (as stated): a first line of two words separated by a tab has
    exactly two tokens delimited by white space, and [get_version] raises;
    a first line that is a space and one word has one such token, and
    [get_version] returns it without an error. *)
Lemma get_version_whitespace_tokens :
  (whitespace_tokens ("Version:" +:+ String "009" "0.45.0") = ["Version:"; "0.45.0"] /\
   get_version ("Version:" +:+ String "009" "0.45.0") [] = (Raises ValueError, [])) /\
  (whitespace_tokens " 0.45.0" = ["0.45.0"] /\
   get_version " 0.45.0" [] = (Returns "0.45.0", [])).
Proof. by vm_compute. Qed.

(** C7 (amended): [get_version] takes the first line of the text, the
    part before the first newline.  If that line contains exactly one
    space, the line is a label, the space and a version, and [get_version]
    returns the version; if and only if the line does not contain exactly
    one space, a [ValueError] propagates.  Nothing is logged. *)
Theorem get_version_spec raw log :
  let line := before_char "010" raw in
  (count_char " " line = 1 ->
   exists label version,
     line = label +:+ " " +:+ version /\
     occurs " " label = false /\ occurs " " version = false /\
     get_version raw log = (Returns version, log)) /\
  (count_char " " line <> 1 -> get_version raw log = (Raises ValueError, log)) /\
  (forall e log', get_version raw log = (Raises e, log') -> count_char " " line <> 1).
Proof.
  intros line. rewrite get_version_eq. fold line.
  destruct (Nat.eqb_spec (count_char " " line) 1) as [H1|H1].
  - split; [|split; [done|by intros e log' [=]]]. intros _.
    exists (before_char " " line), (after_char " " line).
    assert (occurs " " line = true) as Hocc.
    { destruct (occurs " " line) eqn:Ho; [done|].
      apply count_char_occurs in Ho. lia. }
    split; [by apply before_after_char|].
    split; [|split; [|done]].
    + clear. induction line as [|c s IH]; [done|]. simpl.
      destruct (Ascii.eqb c " ") eqn:Hc; [done|]. simpl. by rewrite Hc.
    + clear Hocc. revert H1. induction line as [|c s IH]; [done|]. simpl.
      destruct (Ascii.eqb c " "); simpl; intros H1.
      * apply count_char_occurs. lia.
      * by apply IH.
  - split; [done|]. split; [done|]. by intros e log' _.
Qed.

Lemma get_version_spec_witness :
  (exists label version,
     "Version: 0.45.0" = label +:+ " " +:+ version /\
     occurs " " label = false /\ occurs " " version = false /\
     get_version ("Version: 0.45.0" +:+ String "010" "Vulnerability DB: ...") [] =
       (Returns version, [])) /\
  get_version ("Version: 0.45.0" +:+ String "010" "Vulnerability DB: ...") [] =
    (Returns "0.45.0", []) /\
  get_version "Version:  0.45.0" [] = (Raises ValueError, []).
Proof.
  split; [|split].
  - apply (get_version_spec
             ("Version: 0.45.0" +:+ String "010" "Vulnerability DB: ...") []).
    by vm_compute.
  - by vm_compute.
  - apply (get_version_spec "Version:  0.45.0" []). by vm_compute.
Defined.

(** ** The result parser *)

Lemma has_keys_lookup misconfig :
  has_keys misconfig = true <->
  forall key, key ∈ required_keys -> is_Some (misconfig !! key).
Proof.
  unfold has_keys, has_key. rewrite forallb_forall. split.
  - intros H key Hkey. eapply bool_decide_eq_true_1, H. by apply list_elem_of_In.
  - intros H key Hkey. apply bool_decide_eq_true_2, H. by apply list_elem_of_In.
Qed.

Lemma bind_returns {A B} (m : M A) (k : A -> M B) log a log' :
  m log = (Returns a, log') -> bind m k log = k a log'.
Proof. unfold bind. by intros ->. Qed.

Lemma bind_raises {A B} (m : M A) (k : A -> M B) log e log' :
  m log = (Raises e, log') -> bind m k log = (Raises e, log').
Proof. unfold bind. by intros ->. Qed.

Lemma subscript_Some d key v log :
  d !! key = Some v -> subscript d key log = (Returns v, log).
Proof. unfold subscript. by intros ->. Qed.

Lemma subscript_None d key log :
  d !! key = None -> subscript d key log = (Raises (KeyError key), log).
Proof. unfold subscript. by intros ->. Qed.

Lemma get_checked_path_eq check_id log :
  get_checked_path check_id log =
  (Returns (rendered_path CHECK_MAPPING check_id),
   log ++ diagnostics CHECK_MAPPING check_id).
Proof. apply get_checked_path_in_eq. Qed.

Local Ltac required_key := apply list_elem_of_In; simpl; auto 10.

Local Ltac step_returns :=
  first
    [ erewrite bind_returns by (apply subscript_Some; eassumption)
    | erewrite bind_returns by apply get_checked_path_eq ];
  cbv beta zeta.

Local Ltac step_raises key :=
  erewrite bind_raises by (apply subscript_None; eassumption);
  eexists key, _; split; [required_key|done].

Lemma parse_misconfig_returns result misconfig target log :
  Target result = Some target -> has_keys misconfig = true ->
  exists r,
    parse_misconfig result misconfig log =
      (Returns r, log ++ diagnostics CHECK_MAPPING (scanner_check_id r)) /\
    record_of result misconfig r.
Proof.
  intros Htarget Hkeys. rewrite has_keys_lookup in Hkeys.
  destruct (Hkeys "Status") as [status Hstatus]; [required_key|].
  destruct (Hkeys "ID") as [id Hid]; [required_key|].
  destruct (Hkeys "Title") as [title Htitle]; [required_key|].
  destruct (Hkeys "Severity") as [sev Hsev]; [required_key|].
  destruct (Hkeys "Description") as [descr Hdescr]; [required_key|].
  destruct (Hkeys "Message") as [msg Hmsg]; [required_key|].
  unfold parse_misconfig.
  erewrite bind_returns by (by rewrite Htarget). cbv beta zeta.
  do 8 step_returns.
  eexists (Build_CheckResult _ _ id _ _ _ _ _ _). split; [reflexivity|].
  unfold record_of; cbn [check_id obj_name scanner_check_id scanner_check_name
    checked_path severity got details extra].
  repeat split; eauto.
Qed.

Lemma parse_misconfig_no_target result misconfig log :
  Target result = None ->
  parse_misconfig result misconfig log = (Raises (KeyError "Target"), log).
Proof.
  intros Htarget. unfold parse_misconfig.
  apply bind_raises. by rewrite Htarget.
Qed.

Lemma parse_misconfig_no_key result misconfig target log :
  Target result = Some target -> has_keys misconfig = false ->
  exists key log',
    key ∈ required_keys /\ misconfig !! key = None /\
    parse_misconfig result misconfig log = (Raises (KeyError key), log').
Proof.
  intros Htarget Hkeys.
  unfold parse_misconfig.
  erewrite bind_returns by (by rewrite Htarget). cbv beta zeta.
  destruct (misconfig !! "Status") as [status|] eqn:Hstatus;
    [step_returns|step_raises "Status"].
  destruct (misconfig !! "ID") as [id|] eqn:Hid;
    [do 3 step_returns|step_raises "ID"].
  destruct (misconfig !! "Title") as [title|] eqn:Htitle;
    [step_returns|step_raises "Title"].
  destruct (misconfig !! "Severity") as [sev|] eqn:Hsev;
    [step_returns|step_raises "Severity"].
  destruct (misconfig !! "Description") as [descr|] eqn:Hdescr;
    [step_returns|step_raises "Description"].
  destruct (misconfig !! "Message") as [msg|] eqn:Hmsg;
    [step_returns|step_raises "Message"].
  exfalso. apply not_true_iff_false in Hkeys. apply Hkeys, has_keys_lookup.
  intros key Hkey. apply list_elem_of_In in Hkey. simpl in Hkey.
  repeat (destruct Hkey as [<-|Hkey]; [by eexists|]). done.
Qed.

Lemma misconfig_loop_returns result target ms :
  Target result = Some target -> forallb has_keys ms = true ->
  forall acc log, exists out log',
    misconfig_loop result ms acc log = (Returns (acc ++ out), log') /\
    Forall2 (record_of result) ms out.
Proof.
  intros Htarget. induction ms as [|m ms IH]; intros Hkeys acc log.
  - exists [], log. by rewrite app_nil_r.
  - simpl in Hkeys. apply andb_true_iff in Hkeys as [Hm Hms].
    destruct (parse_misconfig_returns result m target log Htarget Hm) as (r & Hr & Hrec).
    destruct (IH Hms (acc ++ [r]) (log ++ diagnostics CHECK_MAPPING (scanner_check_id r)))
      as (out & log' & Hloop & Hout).
    exists (r :: out), log'. split; [|by constructor].
    cbn [misconfig_loop]. erewrite bind_returns by exact Hr.
    by rewrite Hloop, <- app_assoc.
Qed.

Lemma misconfig_loop_no_target result m ms acc log :
  Target result = None ->
  misconfig_loop result (m :: ms) acc log = (Raises (KeyError "Target"), log).
Proof.
  intros Htarget. cbn [misconfig_loop].
  apply bind_raises. by apply parse_misconfig_no_target.
Qed.

Lemma misconfig_loop_no_key result target ms :
  Target result = Some target -> forallb has_keys ms = false ->
  forall acc log, exists key log',
    misconfig_loop result ms acc log = (Raises (KeyError key), log').
Proof.
  intros Htarget. induction ms as [|m ms IH]; intros Hkeys acc log; [done|].
  cbn [misconfig_loop]. simpl in Hkeys.
  destruct (has_keys m) eqn:Hm.
  - destruct (parse_misconfig_returns result m target log Htarget Hm) as (r & Hr & _).
    erewrite bind_returns by exact Hr. by apply IH.
  - destruct (parse_misconfig_no_key result m target log Htarget Hm)
      as (key & log' & _ & _ & Hr).
    exists key, log'. by apply bind_raises.
Qed.

Lemma encounter_cons result rs :
  encounter (result :: rs) = ((fun m => (result, m)) <$> findings result) ++ encounter rs.
Proof.
  unfold encounter. rewrite bind_cons. f_equal.
Qed.


Lemma result_loop_returns rs :
  readable rs = true ->
  forall acc log, exists out log',
    result_loop rs acc log = (Returns (acc ++ out), log') /\
    Forall2 (fun p r => record_of p.1 p.2 r) (encounter rs) out.
Proof.
  induction rs as [|result rs IH]; intros Hrs acc log.
  - exists [], log. rewrite app_nil_r. by split; [|constructor].
  - simpl in Hrs. apply andb_true_iff in Hrs as [Hresult Hrs].
    assert (exists out1 log1,
      misconfig_loop result (findings result) acc log = (Returns (acc ++ out1), log1) /\
      Forall2 (record_of result) (findings result) out1) as (out1 & log1 & Hloop1 & Hout1).
    { unfold readable_result in Hresult.
      destruct (findings result) as [|m ms] eqn:Hfind.
      - exists [], log. rewrite app_nil_r. by split; [|constructor].
      - apply andb_true_iff in Hresult as [Htarget Hkeys].
        apply bool_decide_eq_true_1 in Htarget as [target Htarget].
        by eapply misconfig_loop_returns. }
    destruct (IH Hrs (acc ++ out1) log1) as (out2 & log2 & Hloop2 & Hout2).
    exists (out1 ++ out2), log2. split.
    + cbn [result_loop]. fold (findings result).
      erewrite bind_returns by exact Hloop1. by rewrite Hloop2, <- app_assoc.
    + rewrite encounter_cons. apply Forall2_app; [|done].
      by apply Forall2_fmap_l.
Qed.

Lemma result_loop_unreadable rs :
  readable rs = false ->
  forall acc log, exists key log',
    result_loop rs acc log = (Raises (KeyError key), log').
Proof.
  induction rs as [|result rs IH]; intros Hrs acc log; [done|].
  cbn [result_loop]. fold (findings result). simpl in Hrs.
  destruct (readable_result result) eqn:Hresult.
  - destruct (result_loop_returns [result]) with (acc := acc) (log := log)
      as (out1 & log1 & Hloop1 & _).
    { simpl. by rewrite Hresult. }
    cbn [result_loop] in Hloop1. fold (findings result) in Hloop1.
    unfold bind in Hloop1 |- *.
    destruct (misconfig_loop result (findings result) acc log) as [[acc1|e] log0];
      [|done].
    by apply IH.
  - unfold readable_result in Hresult.
    destruct (findings result) as [|m ms] eqn:Hfind; [done|].
    destruct (Target result) as [target|] eqn:Htarget.
    + destruct (misconfig_loop_no_key result target (m :: ms) Htarget)
        with (acc := acc) (log := log) as (key & log' & Hloop).
      { apply andb_false_iff in Hresult as [Ht|Hk]; [|done].
        apply bool_decide_eq_false_1 in Ht. by destruct Ht. }
      exists key, log'. by apply bind_raises.
    + exists "Target", log. by apply bind_raises, misconfig_loop_no_target.
Qed.

Lemma parse_results_readable results rs log :
  Results results = Some rs -> readable rs = true ->
  exists out log',
    parse_results results log = (Returns out, log') /\
    Forall2 (fun p r => record_of p.1 p.2 r) (encounter rs) out.
Proof.
  intros Hresults Hrs.
  destruct (result_loop_returns rs Hrs [] log) as (out & log' & Hloop & Hout).
  exists out, log'. split; [|done].
  unfold parse_results. erewrite bind_returns by (by rewrite Hresults). done.
Qed.

Lemma parse_results_unreadable results rs log :
  Results results = Some rs -> readable rs = false ->
  exists key log', parse_results results log = (Raises (KeyError key), log').
Proof.
  intros Hresults Hrs.
  destruct (result_loop_unreadable rs Hrs [] log) as (key & log' & Hloop).
  exists key, log'.
  unfold parse_results. erewrite bind_returns by (by rewrite Hresults). done.
Qed.

Lemma parse_results_no_results results log :
  Results results = None ->
  parse_results results log = (Raises (KeyError "Results"), log).
Proof.
  intros Hresults. unfold parse_results. apply bind_raises. by rewrite Hresults.
Qed.

Lemma parse_results_returns_inv results log out log' :
  parse_results results log = (Returns out, log') ->
  exists rs,
    Results results = Some rs /\ readable rs = true /\
    Forall2 (fun p r => record_of p.1 p.2 r) (encounter rs) out.
Proof.
  intros Hparse.
  destruct (Results results) as [rs|] eqn:Hresults;
    [|by rewrite parse_results_no_results in Hparse].
  exists rs. split; [done|].
  destruct (readable rs) eqn:Hrs.
  - split; [done|].
    destruct (parse_results_readable results rs log Hresults Hrs)
      as (out0 & log0 & Hparse0 & Hout). congruence.
  - destruct (parse_results_unreadable results rs log Hresults Hrs)
      as (key & log0 & Hparse0). congruence.
Qed.

Lemma result_loop_app rs1 rs2 acc log :
  result_loop (rs1 ++ rs2) acc log = bind (result_loop rs1 acc) (result_loop rs2) log.
Proof.
  revert acc log. induction rs1 as [|result rs1 IH]; intros acc log; [done|].
  cbn [app result_loop]. unfold bind.
  destruct (misconfig_loop _ _ acc log) as [[acc1|e] log1]; [|done].
  rewrite IH. by unfold bind.
Qed.

Lemma result_loop_no_findings rs acc log :
  Forall (fun result => findings result = []) rs ->
  result_loop rs acc log = (Returns acc, log).
Proof.
  intros Hrs. revert acc log. induction Hrs as [|result rs Hresult _ IH]; [done|].
  intros acc log. cbn [result_loop]. fold (findings result). rewrite Hresult.
  apply IH.
Qed.

Lemma readable_elem_of rs result :
  readable rs = true -> result ∈ rs -> readable_result result = true.
Proof.
  unfold readable. rewrite forallb_forall. intros H Hin.
  by apply H, list_elem_of_In.
Qed.





(** C2 (as stated): a finding without the key [Severity], without the key
    [Description] or without the key [Message] makes [parse_results] raise
    instead of emitting the record, and so does a finding without the key
    [Title], which is neither the id nor the status. *)
Lemma parse_results_absent_field :
  parse_results (one_finding (delete "Severity" sample_finding)) [] =
    (Raises (KeyError "Severity"), []) /\
  parse_results (one_finding (delete "Description" sample_finding)) [] =
    (Raises (KeyError "Description"), []) /\
  parse_results (one_finding (delete "Message" sample_finding)) [] =
    (Raises (KeyError "Message"), []) /\
  parse_results (one_finding (delete "Title" sample_finding)) [] =
    (Raises (KeyError "Title"), []).
Proof. by vm_compute. Qed.

(** C2 (amended): when the file entries have the keys that are read, a
    finding whose severity, description or message is empty (or anything
    else) still gets its record, which carries these values as they are;
    the six keys [ID], [Title], [Status], [Severity], [Description] and
    [Message] are all assumed present: a finding without one of them makes
    the call raise a lookup error. *)
Theorem parse_results_finding_fields results rs log :
  Results results = Some rs ->
  (readable rs = true ->
   exists out log',
     parse_results results log = (Returns out, log') /\
     Forall2 (fun p r =>
                p.2 !! "Severity" = Some (severity r) /\
                p.2 !! "Description" = Some (details r) /\
                p.2 !! "Message" = Some (extra r))
             (encounter rs) out) /\
  (forall result misconfig key,
     result ∈ rs -> misconfig ∈ findings result ->
     key ∈ required_keys -> misconfig !! key = None ->
     exists key' log', parse_results results log = (Raises (KeyError key'), log')).
Proof.
  intros Hresults. split.
  - intros Hrs.
    destruct (parse_results_readable results rs log Hresults Hrs)
      as (out & log' & Hparse & Hout).
    exists out, log'. split; [done|].
    eapply Forall2_impl; [exact Hout|].
    intros p r (_ & _ & _ & Hsev & Hdescr & Hmsg & _). done.
  - intros result misconfig key Hresult Hmisconfig Hkey Hnone.
    apply (parse_results_unreadable results rs log Hresults).
    destruct (readable rs) eqn:Hrs; [exfalso|done].
    pose proof (readable_elem_of rs result Hrs Hresult) as Hread.
    unfold readable_result in Hread.
    destruct (findings result) as [|m ms]; [by apply elem_of_nil in Hmisconfig|].
    apply andb_true_iff in Hread as [_ Hkeys].
    rewrite forallb_forall in Hkeys.
    apply list_elem_of_In, Hkeys in Hmisconfig.
    rewrite has_keys_lookup in Hmisconfig.
    destruct (Hmisconfig key Hkey) as [v Hv]. congruence.
Qed.

Lemma parse_results_finding_fields_witness :
  (exists out log',
     parse_results (one_finding sample_empty_fields) [] = (Returns out, log') /\
     Forall2 (fun p r =>
                p.2 !! "Severity" = Some (severity r) /\
                p.2 !! "Description" = Some (details r) /\
                p.2 !! "Message" = Some (extra r))
             [({| Target := Some "KSV017-test.yaml";
                  Misconfigurations := Some [sample_empty_fields] |},
               sample_empty_fields)] out) /\
  parse_results (one_finding sample_empty_fields) [] =
    (Returns [sample_record None "KSV017-test" "KSV017" "Privileged container"
                ".spec.containers[].securityContext.privileged" "" Pass "" ""], []) /\
  (exists key' log',
     parse_results (one_finding (delete "Message" sample_finding)) [] =
       (Raises (KeyError key'), log')).
Proof.
  split; [|split].
  - destruct (parse_results_finding_fields (one_finding sample_empty_fields)
                _ [] eq_refl) as [Hok _].
    apply Hok. by vm_compute.
  - by vm_compute.
  - destruct (parse_results_finding_fields
                (one_finding (delete "Message" sample_finding)) _ [] eq_refl)
      as [_ Hraise].
    eapply (Hraise _ (delete "Message" sample_finding) "Message");
      [apply list_elem_of_here|apply list_elem_of_here| |by vm_compute].
    unfold required_keys. do 5 apply list_elem_of_further. apply list_elem_of_here.
Defined.

Lemma parse_results_sample :
  parse_results sample_results [] = (Returns sample_out, sample_log).
Proof. by vm_compute. Qed.

(** C8: take two findings, of any two inputs that [parse_results] returns
    on, at any positions; if they have the same rule id, their records
    have the same [checked_path], whatever the other attributes of the
    findings and whatever the files: the [checked_path] of a record is the
    rendering of the table entry of its [scanner_check_id]. *)
Theorem checked_path_depends_on_id_only
    results1 results2 rs1 rs2 log1 log2 out1 out2 log1' log2' i j p1 p2 r1 r2 :
  Results results1 = Some rs1 -> Results results2 = Some rs2 ->
  parse_results results1 log1 = (Returns out1, log1') ->
  parse_results results2 log2 = (Returns out2, log2') ->
  encounter rs1 !! i = Some p1 -> out1 !! i = Some r1 ->
  encounter rs2 !! j = Some p2 -> out2 !! j = Some r2 ->
  p1.2 !! "ID" = p2.2 !! "ID" ->
  checked_path r1 = checked_path r2 /\
  p1.2 !! "ID" = Some (scanner_check_id r1) /\
  checked_path r1 = rendered_path CHECK_MAPPING (scanner_check_id r1).
Proof.
  intros Hrs1 Hrs2 Hparse1 Hparse2 Hp1 Hr1 Hp2 Hr2 Hid.
  apply parse_results_returns_inv in Hparse1 as (rs1' & Hrs1' & _ & Hout1).
  apply parse_results_returns_inv in Hparse2 as (rs2' & Hrs2' & _ & Hout2).
  assert (rs1' = rs1) as -> by congruence.
  assert (rs2' = rs2) as -> by congruence.
  pose proof (Forall2_lookup_lr _ _ _ _ _ _ Hout1 Hp1 Hr1)
    as (_ & Hid1 & _ & _ & _ & _ & _ & Hpath1).
  pose proof (Forall2_lookup_lr _ _ _ _ _ _ Hout2 Hp2 Hr2)
    as (_ & Hid2 & _ & _ & _ & _ & _ & Hpath2).
  split; [|done].
  rewrite Hpath1, Hpath2. f_equal. congruence.
Qed.

Lemma checked_path_depends_on_id_only_witness :
  checked_path
    (sample_record (Some "POD-001") "POD-001-test" "KSV017" "Privileged"
       ".spec.containers[].securityContext.privileged" "HIGH" Alert "d" "m") =
  checked_path
    (sample_record None "KSV017-test" "KSV017" "Privileged container"
       ".spec.containers[].securityContext.privileged" "" Pass "" "") /\
  sample_finding !! "ID" = Some "KSV017" /\
  ".spec.containers[].securityContext.privileged" =
    rendered_path CHECK_MAPPING "KSV017".
Proof.
  apply (checked_path_depends_on_id_only
           sample_results sample_results sample_files sample_files
           [] [] sample_out sample_out sample_log sample_log 0 2
           ({| Target := Some "manifests/POD-001-test.yaml";
               Misconfigurations := Some [sample_finding; sample_unmapped] |},
            sample_finding)
           ({| Target := Some "KSV017-test.yaml";
               Misconfigurations := Some [sample_empty_fields] |},
            sample_empty_fields));
    by vm_compute.
Defined.

(** C10 (as stated): a file entry without the key [Target] and without
    findings does not make [parse_results] raise; the call returns the
    records of the other entries, here none. *)
Lemma parse_results_bare_file :
  parse_results {| Results := Some [sample_bare_file] |} [] = (Returns [], []) /\
  parse_results
    {| Results := Some [ {| Target := None; Misconfigurations := Some [] |} ] |} [] =
    (Returns [], []).
Proof. by vm_compute. Qed.

(** C10 (amended): [parse_results] requires the top-level key [Results]
    (a [KeyError] otherwise) and the key [Target] of every file entry that
    has at least one finding: such an entry without [Target] makes the
    call raise a lookup error, [KeyError "Target"] when the entries before
    it can be read.  A file entry without findings is never asked for its
    target: with only such entries the call returns the empty list. *)
Theorem parse_results_required_keys results log :
  match Results results with
  | None => parse_results results log = (Raises (KeyError "Results"), log)
  | Some rs =>
      (forall result,
         result ∈ rs -> Target result = None -> findings result <> [] ->
         exists key log', parse_results results log = (Raises (KeyError key), log')) /\
      (forall before result after,
         rs = before ++ result :: after -> readable before = true ->
         Target result = None -> findings result <> [] ->
         exists log', parse_results results log = (Raises (KeyError "Target"), log')) /\
      (Forall (fun result => findings result = []) rs ->
       parse_results results log = (Returns [], log))
  end.
Proof.
  destruct (Results results) as [rs|] eqn:Hresults;
    [|by apply parse_results_no_results].
  split; [|split].
  - intros result Hin Htarget Hfind.
    apply (parse_results_unreadable results rs log Hresults).
    destruct (readable rs) eqn:Hrs; [exfalso|done].
    pose proof (readable_elem_of rs result Hrs Hin) as Hread.
    unfold readable_result in Hread. rewrite Htarget in Hread.
    by destruct (findings result).
  - intros before result after -> Hbefore Htarget Hfind.
    unfold parse_results. erewrite bind_returns by (by rewrite Hresults).
    rewrite result_loop_app.
    destruct (result_loop_returns before Hbefore [] log) as (out & log' & Hloop & _).
    erewrite bind_returns by exact Hloop.
    exists log'. cbn [result_loop]. fold (findings result).
    apply bind_raises.
    destruct (findings result) as [|m ms]; [done|].
    by apply misconfig_loop_no_target.
  - intros Hrs. unfold parse_results.
    erewrite bind_returns by (by rewrite Hresults).
    by apply result_loop_no_findings.
Qed.

Lemma parse_results_required_keys_witness :
  parse_results {| Results := None |} [] = (Raises (KeyError "Results"), []) /\
  (exists log',
     parse_results {| Results := Some (sample_files ++ [sample_untargeted_file]) |} [] =
       (Raises (KeyError "Target"), log')) /\
  parse_results {| Results := Some [sample_bare_file; sample_bare_file] |} [] =
    (Returns [], []).
Proof.
  split; [|split].
  - apply (parse_results_required_keys {| Results := None |} []).
  - pose proof (parse_results_required_keys
                  {| Results := Some (sample_files ++ [sample_untargeted_file]) |} [])
      as (_ & Hfirst & _).
    apply (Hfirst sample_files sample_untargeted_file []); by vm_compute.
  - pose proof (parse_results_required_keys
                  {| Results := Some [sample_bare_file; sample_bare_file] |} [])
      as (_ & _ & Hnone).
    apply Hnone. by repeat constructor.
Defined.

(** * Further properties *)

(** ** Where a returned id ends *)

Lemma head_app_Some {A} (l k : list A) x : head l = Some x -> head (l ++ k) = Some x.
Proof. by destruct l. Qed.

Lemma char_of_nonempty p c : char_of p c -> c <> [].
Proof. intros (cp & Hc & _). by destruct c. Qed.

Lemma plus_class_nil p n v :
  Re.first_is p v = false -> Re.plus_loop (Re.rmatch (Re.Class p)) n v = [].
Proof.
  intros Hv. destruct n as [|n]; [done|]. rewrite plus_loop_S, rmatch_class.
  unfold Re.first_is in Hv.
  destruct (Re.decode_char v) as [[cp v']|]; [|done]. by rewrite Hv.
Qed.

Lemma plus_class_head p us v :
  us <> [] -> Forall (char_of p) us -> Re.first_is p v = false ->
  forall n, length (concat us ++ v) < n ->
    head (Re.plus_loop (Re.rmatch (Re.Class p)) n (concat us ++ v)) = Some v.
Proof.
  intros Hne Hus Hv. induction Hus as [|c us Hc Hus IH]; [done|].
  intros n Hlen. destruct n as [|n]; [lia|].
  pose proof (char_of_nonempty _ _ Hc) as Hcne.
  destruct Hc as (cp & Hc & Hp).
  cbn [concat] in Hlen |- *. rewrite <- app_assoc in Hlen |- *.
  rewrite plus_loop_S, rmatch_class, (decode_char_app _ _ _ Hc), Hp, bind_singleton.
  rewrite length_app in Hlen.
  assert (0 < length c) by (destruct c; [done|simpl; lia]).
  destruct us as [|c' us].
  - cbn [concat app]. by rewrite plus_class_nil.
  - apply head_app_Some, IH; [done|]. lia.
Qed.

Lemma groups_nil n rest :
  starts_group rest = false -> Re.plus_loop (Re.rmatch group_pattern) n rest = [].
Proof.
  intros Hrest. destruct n as [|n]; [done|].
  rewrite plus_loop_S, rmatch_group.
  destruct rest as [|c rest]; [done|]. cbn [starts_group] in Hrest.
  destruct (Ascii.eqb "-" c); [|done].
  by rewrite plus_class_nil.
Qed.

Lemma first_is_after_groups p gs rest :
  p 45%N = false -> Forall digit_group gs -> Re.first_is p rest = false ->
  Re.first_is p (concat gs ++ rest) = false.
Proof.
  intros Hp Hgs Hrest. destruct Hgs as [|g gs (d & -> & _) _]; [done|].
  cbn [concat app]. unfold Re.first_is. by rewrite decode_char_dash.
Qed.

Lemma groups_head gs rest :
  gs <> [] -> Forall digit_group gs ->
  Re.first_is Re.is_digit rest = false -> starts_group rest = false ->
  forall n, length (concat gs ++ rest) < n ->
    head (Re.plus_loop (Re.rmatch group_pattern) n (concat gs ++ rest)) = Some rest.
Proof.
  intros Hne Hgs Hdigit Hgroup. induction Hgs as [|g gs Hg Hgs IH]; [done|].
  intros n Hlen. destruct n as [|n]; [lia|].
  destruct Hg as (d & -> & ds & -> & Hds & Hall).
  cbn [concat] in Hlen |- *. rewrite <- app_assoc in Hlen |- *.
  cbn [app length] in Hlen |- *. rewrite length_app in Hlen.
  rewrite plus_loop_S, rmatch_group, Ascii.eqb_refl.
  assert (Re.first_is Re.is_digit (concat gs ++ rest) = false) as Hnext
    by by apply first_is_after_groups.
  pose proof (plus_class_head Re.is_digit ds (concat gs ++ rest) Hds Hall Hnext
                (S (length (concat ds ++ concat gs ++ rest))) ltac:(lia)) as Hhead.
  destruct (Re.plus_loop _ (S (length (concat ds ++ concat gs ++ rest))) _)
    as [|x tl]; [done|].
  injection Hhead as ->. rewrite bind_cons. apply head_app_Some.
  destruct gs as [|g' gs'].
  - cbn [concat app]. by rewrite groups_nil.
  - apply head_app_Some, IH; [done|]. lia.
Qed.

Lemma pattern_head w gs rest :
  char_run Re.is_word w -> gs <> [] -> Forall digit_group gs ->
  Re.first_is Re.is_digit rest = false -> starts_group rest = false ->
  head (Re.rmatch check_id_pattern (w ++ concat gs ++ rest)) = Some rest.
Proof.
  intros (ws & -> & Hws & Hall) Hne Hgs Hdigit Hgroup.
  rewrite rmatch_check_id_pattern.
  assert (Re.first_is Re.is_word (concat gs ++ rest) = false) as Hnext.
  { destruct Hgs as [|g gs (d & -> & _) _]; [done|].
    cbn [concat app]. unfold Re.first_is. by rewrite decode_char_dash. }
  pose proof (plus_class_head Re.is_word ws (concat gs ++ rest) Hws Hall Hnext
                (S (length (concat ws ++ concat gs ++ rest))) ltac:(lia)) as Hhead.
  destruct (Re.plus_loop _ (S (length (concat ws ++ concat gs ++ rest))) _)
    as [|x tl]; [done|].
  injection Hhead as ->. rewrite bind_cons.
  apply head_app_Some, groups_head; try done. lia.
Qed.

Lemma char_run_snoc p u c : char_run p u -> char_of p c -> char_run p (u ++ c).
Proof.
  intros (us & -> & Hne & Hus) Hc. exists (us ++ [c]). repeat split.
  - rewrite concat_app. simpl. by rewrite app_nil_r.
  - by destruct us.
  - apply Forall_app. split; [done|by apply Forall_singleton].
Qed.

Lemma token_snoc_digit t d :
  check_id_token t -> char_of Re.is_digit d -> check_id_token (t ++ d).
Proof.
  intros (w & gs & -> & Hw & Hne & Hgs) Hd.
  destruct (exists_last Hne) as (gs' & g & ->).
  apply Forall_app in Hgs as [Hgs' Hg].
  apply Forall_singleton in Hg as (ds & -> & Hds).
  exists w, (gs' ++ [("-"%char :: ds) ++ d]). repeat split; try done.
  - rewrite !concat_app. simpl. by rewrite !app_nil_r, <- !app_assoc.
  - by destruct gs'.
  - apply Forall_app. split; [done|]. apply Forall_singleton.
    exists (ds ++ d). split; [done|]. by apply char_run_snoc.
Qed.

Lemma token_snoc_group t d :
  check_id_token t -> char_of Re.is_digit d -> check_id_token (t ++ "-"%char :: d).
Proof.
  intros (w & gs & -> & Hw & Hne & Hgs) Hd.
  exists w, (gs ++ [("-"%char :: d)]). repeat split; try done.
  - rewrite concat_app. simpl. by rewrite app_nil_r, <- app_assoc.
  - by destruct gs.
  - apply Forall_app. split; [done|]. apply Forall_singleton.
    exists d. split; [done|]. exists [d]. split; [|split; [done|]].
    + simpl. by rewrite app_nil_r.
    + by apply Forall_singleton.
Qed.

Lemma rmatch_head_longest cs rest tl u v :
  Re.rmatch check_id_pattern cs = rest :: tl ->
  cs = u ++ v -> check_id_token u -> length rest <= length v.
Proof.
  intros Hm -> Hu. apply matches_check_id_pattern in Hu.
  apply rmatch_complete with (rest := v) in Hu.
  pose proof (pattern_first (u ++ v)) as Hfirst. rewrite Hm in Hu, Hfirst.
  apply elem_of_cons in Hu as [->|Hin]; [done|].
  rewrite Forall_forall in Hfirst. by apply Hfirst.
Qed.

Lemma first_is_split p s :
  Re.first_is p s = true -> exists d s', s = d ++ s' /\ char_of p d.
Proof.
  unfold Re.first_is. destruct (Re.decode_char s) as [[cp s']|] eqn:Hs; [|done].
  intros Hp. destruct (decode_char_split _ _ _ Hs) as (d & -> & _ & Hd).
  exists d, s'. split; [done|]. by exists cp.
Qed.

Lemma rmatch_head_munch cs rest tl :
  Re.rmatch check_id_pattern cs = rest :: tl ->
  Re.first_is Re.is_digit rest = false /\ starts_group rest = false.
Proof.
  intros Hm.
  destruct (rmatch_sound check_id_pattern cs rest) as (u & Hcs & Hu).
  { rewrite Hm. by left. }
  apply matches_check_id_pattern in Hu. split.
  - destruct (Re.first_is Re.is_digit rest) eqn:Hd; [exfalso|done].
    destruct (first_is_split _ _ Hd) as (d & rest' & -> & Hchar).
    pose proof (char_of_nonempty _ _ Hchar) as Hne.
    pose proof (rmatch_head_longest cs (d ++ rest') tl (u ++ d) rest' Hm) as Hle.
    rewrite <- app_assoc in Hle. specialize (Hle Hcs (token_snoc_digit u d Hu Hchar)).
    rewrite length_app in Hle. destruct d; [done|]. simpl in Hle. lia.
  - destruct rest as [|c rest1]; [done|]. cbn [starts_group].
    destruct (Ascii.eqb_spec "-" c) as [<-|]; [|done].
    destruct (Re.first_is Re.is_digit rest1) eqn:Hd; [exfalso|done].
    destruct (first_is_split _ _ Hd) as (d & rest' & -> & Hchar).
    pose proof (rmatch_head_longest cs ("-"%char :: d ++ rest') tl
                  (u ++ "-"%char :: d) rest' Hm) as Hle.
    rewrite <- app_assoc in Hle. specialize (Hle Hcs (token_snoc_group u d Hu Hchar)).
    simpl in Hle. rewrite length_app in Hle. lia.
Qed.

(** X1: [extract_check_id] returns the id [t] for an object name exactly
    when the name is [t] followed by a remainder, [t] has the shape of the
    pattern, and the remainder starts neither with a digit nor with a [-]
    and a digit (digits in the Unicode sense of [\d]): the id ends where
    the last digit group ends. *)
Theorem extract_check_id_iff obj_name t :
  extract_check_id obj_name = Some t <->
  exists rest,
    obj_name = t +:+ rest /\
    check_id_token (list_ascii_of_string t) /\
    Re.first_is Re.is_digit (list_ascii_of_string rest) = false /\
    starts_group (list_ascii_of_string rest) = false.
Proof.
  split.
  - intros H. apply search_anchored_Some in H as (rest & tl & Hm & Hs & Ht).
    exists rest. split; [done|]. split; [by apply matches_check_id_pattern|].
    by eapply rmatch_head_munch.
  - intros (rest & -> & (w & gs & Ht & Hw & Hne & Hgs) & Hdigit & Hgroup).
    unfold extract_check_id, Re.search_anchored.
    rewrite list_ascii_of_string_app, Ht, <- app_assoc.
    pose proof (pattern_head w gs _ Hw Hne Hgs Hdigit Hgroup) as Hhead.
    destruct (Re.rmatch check_id_pattern _) as [|x tl]; [done|].
    injection Hhead as ->. f_equal.
    rewrite app_assoc, length_app, Nat.add_sub, take_app_length, <- Ht.
    apply string_of_list_ascii_of_string.
Qed.

(** X2: a returned id is a fixed point of the extractor: extracting from
    the id itself gives the id back. *)
Theorem extract_check_id_idempotent obj_name t :
  extract_check_id obj_name = Some t -> extract_check_id t = Some t.
Proof.
  intros H. apply search_anchored_Some in H as (rest & tl & Hm & Hs & Ht).
  apply matches_check_id_pattern in Ht as (w & gs & Ht & Hw & Hne & Hgs).
  unfold extract_check_id, Re.search_anchored.
  pose proof (pattern_head w gs [] Hw Hne Hgs eq_refl eq_refl) as Hhead.
  rewrite app_nil_r in Hhead. rewrite <- Ht in Hhead.
  destruct (Re.rmatch check_id_pattern (list_ascii_of_string t)) as [|x tl'];
    [done|].
  injection Hhead as ->. f_equal. simpl. rewrite Nat.sub_0_r, firstn_all.
  apply string_of_list_ascii_of_string.
Qed.

Lemma extract_check_id_idempotent_witness :
  extract_check_id "POD-001" = Some "POD-001".
Proof.
  apply (extract_check_id_idempotent "POD-001-privileged.yaml" "POD-001").
  by vm_compute.
Defined.

(** ** The table *)

Lemma table_items_well_formed : forallb item_well_formed CHECK_MAPPING_items = true.
Proof. by vm_compute. Qed.

Lemma table_lookup_Some check_id category entry :
  CHECK_MAPPING !! check_id = Some (category, entry) ->
  (check_id, (category, entry)) ∈ CHECK_MAPPING_items /\
  item_well_formed (check_id, (category, entry)) = true.
Proof.
  intros Hentry. apply elem_of_list_to_map_2 in Hentry. split; [done|].
  pose proof table_items_well_formed as Hall. rewrite forallb_forall in Hall.
  by apply Hall, list_elem_of_In.
Qed.

Lemma table_entry_paths check_id category entry :
  CHECK_MAPPING !! check_id = Some (category, entry) ->
  exists p ps,
    entry = Multiple (p :: ps) /\
    Forall (fun p => occurs "|" p = false /\ p <> "") (p :: ps).
Proof.
  intros Hentry. apply table_lookup_Some in Hentry as [_ Hwf].
  unfold item_well_formed in Hwf. cbn [snd] in Hwf.
  destruct entry as [?|[|p ps]|]; try done.
  exists p, ps. split; [done|].
  rewrite forallb_forall in Hwf. apply Forall_forall. intros q Hq.
  apply list_elem_of_In, Hwf in Hq.
  apply andb_true_iff in Hq as [Hbar Hempty].
  apply negb_true_iff in Hbar, Hempty. split; [done|].
  by apply String.eqb_neq.
Qed.

Lemma diagnostics_unmapped check_id :
  diagnostics CHECK_MAPPING check_id =
  if unmapped check_id then [unmapped_warning check_id] else [].
Proof.
  unfold diagnostics, mapped_paths, unmapped.
  destruct (CHECK_MAPPING !! check_id) as [[category entry]|] eqn:Hentry.
  - rewrite bool_decide_eq_false_2 by done.
    by destruct (table_entry_paths _ _ _ Hentry) as (p & ps & -> & _).
  - by rewrite bool_decide_eq_true_2.
Qed.

Lemma table_keys_NoDup : NoDup (CHECK_MAPPING_items.*1).
Proof. apply (bool_decide_unpack _). by vm_compute. Qed.

(** X4: the dict literal of the table has no key twice, so no entry is
    shadowed by a later one: a pair is listed in the literal exactly when
    the lookup of its key gives its value. *)
Theorem check_mapping_lookup_iff check_id entry :
  (check_id, entry) ∈ CHECK_MAPPING_items <-> CHECK_MAPPING !! check_id = Some entry.
Proof. apply elem_of_list_to_map, table_keys_NoDup. Qed.

Lemma join_nonempty sep p ps : p <> "" -> Py.join sep (p :: ps) <> "".
Proof.
  intros Hp. unfold Py.join. destruct ps as [|q ps]; [done|].
  cbn [String.concat]. by destruct p.
Qed.

(** X5: with the table of the scanner, an empty [checked_path] means an
    unmapped rule and always comes with its warning: for every id either
    the table has no entry, the result is the empty string and exactly
    one warning is logged, or the table has an entry, the result is a
    non-empty string and nothing is logged. *)
Theorem get_checked_path_empty_or_mapped check_id log :
  (CHECK_MAPPING !! check_id = None /\
   get_checked_path check_id log = (Returns "", log ++ [unmapped_warning check_id])) \/
  (is_Some (CHECK_MAPPING !! check_id) /\
   exists p, p <> "" /\ get_checked_path check_id log = (Returns p, log)).
Proof.
  rewrite get_checked_path_eq. unfold rendered_path, diagnostics, mapped_paths.
  destruct (CHECK_MAPPING !! check_id) as [[category entry]|] eqn:Hentry.
  - right. split; [done|].
    destruct (table_entry_paths _ _ _ Hentry) as (p & ps & -> & Hps).
    exists (Py.join "|" (p :: ps)). rewrite app_nil_r. split; [|done].
    apply join_nonempty. by apply Forall_cons_1 in Hps as [[_ ?] _].
  - left. by split.
Qed.

(** X6: for every id that the table of the scanner maps, the entry is a
    non-empty list of paths and splitting the string that
    [get_checked_path] returns at [|] gives exactly that list: no path of
    the table contains the delimiter, so the joined string loses
    nothing. *)
Theorem get_checked_path_split check_id category entry log :
  CHECK_MAPPING !! check_id = Some (category, entry) ->
  exists ps p,
    entry = Multiple ps /\ ps <> [] /\
    get_checked_path check_id log = (Returns p, log) /\
    Py.split "|" p = ps.
Proof.
  intros Hentry.
  destruct (table_entry_paths _ _ _ Hentry) as (p & ps & -> & Hps).
  exists (p :: ps), (Py.join "|" (p :: ps)). split; [done|]. split; [done|]. split.
  - rewrite get_checked_path_eq. unfold rendered_path, diagnostics, mapped_paths.
    rewrite Hentry. by rewrite app_nil_r.
  - apply split_join; [done|].
    eapply Forall_impl; [exact Hps|]. by intros q [? _].
Qed.

Lemma get_checked_path_split_witness :
  exists ps p,
    Multiple [".spec.containers[].image"; ".spec.containers[].name"] = Multiple ps /\
    ps <> [] /\
    get_checked_path "KSV032" [] = (Returns p, []) /\
    Py.split "|" p = ps.
Proof.
  apply (get_checked_path_split "KSV032" Workload
           (Multiple [".spec.containers[].image"; ".spec.containers[].name"]) []).
  by vm_compute.
Defined.

(** ** What the result parser logs *)

Lemma ids_of_cons result m l :
  ids_of ((result, m) :: l) =
  match m !! "ID" with
  | Some id => id :: ids_of l
  | None => ids_of l
  end.
Proof. reflexivity. Qed.

Lemma ids_of_app l1 l2 : ids_of (l1 ++ l2) = ids_of l1 ++ ids_of l2.
Proof. apply omap_app. Qed.

Lemma unmapped_warnings_cons id ids :
  unmapped_warnings (id :: ids) =
  (if unmapped id then [unmapped_warning id] else []) ++ unmapped_warnings ids.
Proof.
  unfold unmapped_warnings. cbn [List.filter].
  destruct (unmapped id); reflexivity.
Qed.

Lemma unmapped_warnings_app ids1 ids2 :
  unmapped_warnings (ids1 ++ ids2) = unmapped_warnings ids1 ++ unmapped_warnings ids2.
Proof. unfold unmapped_warnings. by rewrite List.filter_app, fmap_app. Qed.

Lemma misconfig_loop_log result target ms :
  Target result = Some target -> forallb has_keys ms = true ->
  forall acc log, exists out,
    misconfig_loop result ms acc log =
    (Returns (acc ++ out),
     log ++ unmapped_warnings (ids_of ((fun m => (result, m)) <$> ms))).
Proof.
  intros Htarget. induction ms as [|m ms IH]; intros Hkeys acc log.
  - exists []. by rewrite !app_nil_r.
  - simpl in Hkeys. apply andb_true_iff in Hkeys as [Hm Hms].
    destruct (parse_misconfig_returns result m target log Htarget Hm)
      as (r & Hr & _ & Hid & _).
    destruct (IH Hms (acc ++ [r])
                (log ++ diagnostics CHECK_MAPPING (scanner_check_id r)))
      as (out & Hloop).
    exists (r :: out).
    cbn [misconfig_loop]. erewrite bind_returns by exact Hr.
    rewrite Hloop, <- !app_assoc. f_equal. f_equal.
    rewrite fmap_cons, ids_of_cons, Hid, unmapped_warnings_cons.
    by rewrite diagnostics_unmapped.
Qed.

Lemma result_loop_log rs :
  readable rs = true ->
  forall acc log, exists out,
    result_loop rs acc log =
    (Returns (acc ++ out), log ++ unmapped_warnings (ids_of (encounter rs))).
Proof.
  induction rs as [|result rs IH]; intros Hrs acc log.
  - exists []. by rewrite !app_nil_r.
  - simpl in Hrs. apply andb_true_iff in Hrs as [Hresult Hrs].
    rewrite encounter_cons, ids_of_app, unmapped_warnings_app.
    assert (exists out1,
      misconfig_loop result (findings result) acc log =
      (Returns (acc ++ out1),
       log ++ unmapped_warnings (ids_of ((fun m => (result, m)) <$> findings result))))
      as (out1 & Hloop1).
    { unfold readable_result in Hresult.
      destruct (findings result) as [|m ms] eqn:Hfind.
      - exists []. by rewrite !app_nil_r.
      - apply andb_true_iff in Hresult as [Htarget Hkeys].
        apply bool_decide_eq_true_1 in Htarget as [target Htarget].
        by eapply misconfig_loop_log. }
    destruct (IH Hrs (acc ++ out1)
                (log ++ unmapped_warnings
                          (ids_of ((fun m => (result, m)) <$> findings result))))
      as (out2 & Hloop2).
    exists (out1 ++ out2). cbn [result_loop]. fold (findings result).
    erewrite bind_returns by exact Hloop1. by rewrite Hloop2, <- !app_assoc.
Qed.

(** X7: on an input that it can read, [parse_results] logs exactly one
    warning for each finding whose rule id the table does not have, in
    encounter order, after the records that were logged before, and
    nothing else. *)
Theorem parse_results_log results rs log :
  Results results = Some rs -> readable rs = true ->
  exists out,
    parse_results results log =
    (Returns out, log ++ (unmapped_warning <$> List.filter unmapped (finding_ids rs))).
Proof.
  intros Hresults Hrs.
  destruct (result_loop_log rs Hrs [] log) as (out & Hloop).
  exists out. unfold parse_results.
  erewrite bind_returns by (by rewrite Hresults). exact Hloop.
Qed.

Lemma parse_results_log_witness :
  exists out,
    parse_results sample_results [] =
    (Returns out, [Warning "trivy check 'KSV999' not found in the mapping"]).
Proof.
  apply (parse_results_log sample_results sample_files []); by vm_compute.
Defined.

(** ** Concatenating inputs *)

Lemma misconfig_loop_acc result ms :
  forall acc log,
    misconfig_loop result ms acc log =
    match misconfig_loop result ms [] log with
    | (Returns out, log') => (Returns (acc ++ out), log')
    | (Raises e, log') => (Raises e, log')
    end.
Proof.
  induction ms as [|m ms IH]; intros acc log.
  - cbn [misconfig_loop]. unfold ret. by rewrite app_nil_r.
  - cbn [misconfig_loop]. unfold bind.
    destruct (parse_misconfig result m log) as [[r|e] log1]; [|done].
    rewrite (IH (acc ++ [r])), (IH ([] ++ [r])).
    destruct (misconfig_loop result ms [] log1) as [[out|e] log2]; [|done].
    by rewrite <- app_assoc.
Qed.

Lemma result_loop_acc rs :
  forall acc log,
    result_loop rs acc log =
    match result_loop rs [] log with
    | (Returns out, log') => (Returns (acc ++ out), log')
    | (Raises e, log') => (Raises e, log')
    end.
Proof.
  induction rs as [|result rs IH]; intros acc log.
  - cbn [result_loop]. unfold ret. by rewrite app_nil_r.
  - cbn [result_loop]. unfold bind.
    rewrite (misconfig_loop_acc result _ acc).
    destruct (misconfig_loop result _ [] log) as [[out1|e] log1]; [|done].
    rewrite (IH (acc ++ out1)), (IH out1).
    destruct (result_loop rs [] log1) as [[out2|e] log2]; [|done].
    by rewrite <- app_assoc.
Qed.

(** X8: [parse_results] works file entry by file entry.  On the entries
    [rs1 ++ rs2] it behaves as a run on [rs1] followed by a run on [rs2]
    that starts from the log the first run left: the records are those of
    [rs1] followed by those of [rs2], and an error in [rs1] is raised
    before [rs2] is looked at. *)
Theorem parse_results_app rs1 rs2 log :
  parse_results {| Results := Some (rs1 ++ rs2) |} log =
  match parse_results {| Results := Some rs1 |} log with
  | (Returns out1, log1) =>
      match parse_results {| Results := Some rs2 |} log1 with
      | (Returns out2, log2) => (Returns (out1 ++ out2), log2)
      | (Raises e, log2) => (Raises e, log2)
      end
  | (Raises e, log1) => (Raises e, log1)
  end.
Proof.
  unfold parse_results. cbn [Results].
  rewrite !(bind_returns (member "Results" (Some _)) _ log _ log eq_refl).
  rewrite result_loop_app. unfold bind.
  destruct (result_loop rs1 [] log) as [[out1|e] log1]; [|done].
  apply result_loop_acc.
Qed.

(** ** Which lookup error is raised *)

Lemma has_key_Some key (d : gmap string string) v :
  d !! key = Some v -> has_key key d = true.
Proof. intros H. unfold has_key. apply bool_decide_eq_true_2. by exists v. Qed.

Lemma has_key_None key (d : gmap string string) :
  d !! key = None -> has_key key d = false.
Proof.
  intros H. unfold has_key. apply bool_decide_eq_false_2. rewrite H. by intros [? ?].
Qed.

Local Ltac key_present H :=
  rewrite (has_key_Some _ _ _ H); cbn [negb]; step_returns.

Local Ltac key_missing H :=
  rewrite (has_key_None _ _ H); cbn [negb];
  erewrite bind_raises by (apply subscript_None; exact H); eauto.

Lemma parse_misconfig_first_missing result m log :
  match first_missing result m with
  | Some key => exists log', parse_misconfig result m log = (Raises (KeyError key), log')
  | None => exists r log', parse_misconfig result m log = (Returns r, log')
  end.
Proof.
  unfold first_missing.
  destruct (Target result) as [target|] eqn:Htarget;
    [|rewrite parse_misconfig_no_target by done; eauto].
  unfold parse_misconfig.
  erewrite bind_returns by (by rewrite Htarget). cbv beta zeta.
  unfold required_keys. cbn [List.find].
  destruct (m !! "Status") as [status|] eqn:Hstatus;
    [key_present Hstatus|key_missing Hstatus].
  destruct (m !! "ID") as [id|] eqn:Hid;
    [key_present Hid; do 2 step_returns|key_missing Hid].
  destruct (m !! "Title") as [title|] eqn:Htitle;
    [key_present Htitle|key_missing Htitle].
  destruct (m !! "Severity") as [sev|] eqn:Hsev;
    [key_present Hsev|key_missing Hsev].
  destruct (m !! "Description") as [descr|] eqn:Hdescr;
    [key_present Hdescr|key_missing Hdescr].
  destruct (m !! "Message") as [msg|] eqn:Hmsg;
    [key_present Hmsg|key_missing Hmsg].
  unfold ret. eauto.
Qed.

Lemma misconfig_loop_first_missing result (ms : list (gmap string string)) :
  forall acc log,
    match head (omap (first_missing result) ms) with
    | Some key =>
        exists log', misconfig_loop result ms acc log = (Raises (KeyError key), log')
    | None => exists out log', misconfig_loop result ms acc log = (Returns out, log')
    end.
Proof.
  induction ms as [|m ms IH]; intros acc log.
  - cbn. unfold ret. eauto.
  - cbn [misconfig_loop omap list_omap].
    pose proof (parse_misconfig_first_missing result m log) as Hm.
    destruct (first_missing result m) as [key|].
    + destruct Hm as (log' & Hm). exists log'. by apply bind_raises.
    + destruct Hm as (r & log' & Hm). erewrite bind_returns by exact Hm. apply IH.
Qed.

Lemma omap_pair_first_missing result (ms : list (gmap string string)) :
  omap (fun p => first_missing p.1 p.2) ((fun m => (result, m)) <$> ms) =
  omap (first_missing result) ms.
Proof.
  induction ms as [|m ms IH]; [done|]. cbn. rewrite IH. done.
Qed.

Lemma result_loop_first_missing rs :
  forall acc log,
    match first_missing_key rs with
    | Some key => exists log', result_loop rs acc log = (Raises (KeyError key), log')
    | None => exists out log', result_loop rs acc log = (Returns out, log')
    end.
Proof.
  unfold first_missing_key.
  induction rs as [|result rs IH]; intros acc log.
  - cbn. unfold ret. eauto.
  - rewrite encounter_cons, omap_app, omap_pair_first_missing.
    cbn [result_loop]. fold (findings result).
    pose proof (misconfig_loop_first_missing result (findings result) acc log) as Hm.
    destruct (omap (first_missing result) (findings result)) as [|key keys].
    + destruct Hm as (out & log' & Hm). erewrite bind_returns by exact Hm.
      apply IH.
    + destruct Hm as (log' & Hm). exists log'. by apply bind_raises.
Qed.

(** X9: when the key [Results] is there, [parse_results] returns exactly
    when no finding misses a key, and otherwise raises the lookup error of
    the first missing key in the order in which the code subscripts: file
    entries in order, their findings in order, and for one finding the
    target of its file entry, then [Status], [ID], [Title], [Severity],
    [Description] and [Message]. *)
Theorem parse_results_first_missing_key results rs log :
  Results results = Some rs ->
  match first_missing_key rs with
  | Some key => exists log', parse_results results log = (Raises (KeyError key), log')
  | None => exists out log', parse_results results log = (Returns out, log')
  end.
Proof.
  intros Hresults. unfold parse_results.
  erewrite bind_returns by (by rewrite Hresults).
  apply result_loop_first_missing.
Qed.

Lemma parse_results_first_missing_key_witness :
  (exists log',
     parse_results
       (one_finding (delete "Status" (delete "Severity" sample_finding))) [] =
       (Raises (KeyError "Status"), log')) /\
  (exists out log', parse_results sample_results [] = (Returns out, log')).
Proof.
  split.
  - exact (parse_results_first_missing_key
             (one_finding (delete "Status" (delete "Severity" sample_finding)))
             _ [] eq_refl).
  - exact (parse_results_first_missing_key sample_results _ [] eq_refl).
Defined.

Lemma parse_misconfig_late_key result target m status id log :
  Target result = Some target ->
  m !! "Status" = Some status -> m !! "ID" = Some id -> has_keys m = false ->
  exists key,
    key ∈ ["Title"; "Severity"; "Description"; "Message"] /\ m !! key = None /\
    parse_misconfig result m log =
      (Raises (KeyError key), log ++ diagnostics CHECK_MAPPING id).
Proof.
  intros Htarget Hstatus Hid Hkeys.
  unfold parse_misconfig.
  erewrite bind_returns by (by rewrite Htarget). cbv beta zeta.
  do 4 step_returns.
  destruct (m !! "Title") as [title|] eqn:Htitle; [step_returns|].
  2:{ exists "Title". split; [set_solver|]. split; [done|].
      by erewrite bind_raises by (apply subscript_None; eassumption). }
  destruct (m !! "Severity") as [sev|] eqn:Hsev; [step_returns|].
  2:{ exists "Severity". split; [set_solver|]. split; [done|].
      by erewrite bind_raises by (apply subscript_None; eassumption). }
  destruct (m !! "Description") as [descr|] eqn:Hdescr; [step_returns|].
  2:{ exists "Description". split; [set_solver|]. split; [done|].
      by erewrite bind_raises by (apply subscript_None; eassumption). }
  destruct (m !! "Message") as [msg|] eqn:Hmsg; [step_returns|].
  2:{ exists "Message". split; [set_solver|]. split; [done|].
      by erewrite bind_raises by (apply subscript_None; eassumption). }
  exfalso. apply not_true_iff_false in Hkeys. apply Hkeys, has_keys_lookup.
  intros key Hkey. apply list_elem_of_In in Hkey. simpl in Hkey.
  repeat (destruct Hkey as [<-|Hkey]; [by eexists|]). done.
Qed.

(** X10: the warning of a finding is logged before the rest of its record
    is read.  When the entries before a file entry can be read, that entry
    has its [Target], and its first finding has its status and its id but
    misses one of [Title], [Severity], [Description] and [Message], the
    call raises the lookup error of that key, and by then the log holds
    the warnings of the earlier findings and, if the id is not in the
    table, the warning of the failing finding too. *)
Theorem parse_results_warns_before_raising
    before result after target m ms status id log :
  readable before = true ->
  Target result = Some target -> findings result = m :: ms ->
  m !! "Status" = Some status -> m !! "ID" = Some id -> has_keys m = false ->
  exists key,
    key ∈ ["Title"; "Severity"; "Description"; "Message"] /\ m !! key = None /\
    parse_results {| Results := Some (before ++ result :: after) |} log =
      (Raises (KeyError key),
       log ++ (unmapped_warning <$> List.filter unmapped (finding_ids before ++ [id]))).
Proof.
  intros Hbefore Htarget Hfind Hstatus Hid Hkeys.
  destruct (result_loop_log before Hbefore [] log) as (out & Hloop).
  destruct (parse_misconfig_late_key result target m status id
              (log ++ unmapped_warnings (ids_of (encounter before)))
              Htarget Hstatus Hid Hkeys) as (key & Hkey & Hnone & Hraise).
  exists key. split; [done|]. split; [done|].
  unfold parse_results. cbn [Results].
  rewrite (bind_returns (member "Results" (Some _)) _ log _ log eq_refl).
  rewrite result_loop_app. erewrite bind_returns by exact Hloop.
  cbn [result_loop]. fold (findings result). rewrite Hfind.
  cbn [misconfig_loop]. apply bind_raises, bind_raises.
  rewrite Hraise. f_equal. rewrite <- app_assoc. f_equal.
  change (unmapped_warning <$> List.filter unmapped (finding_ids before ++ [id]))
    with (unmapped_warnings (ids_of (encounter before) ++ [id])).
  rewrite unmapped_warnings_app, unmapped_warnings_cons, diagnostics_unmapped.
  by rewrite app_nil_r.
Qed.

Lemma parse_results_warns_before_raising_witness :
  exists key,
    key ∈ ["Title"; "Severity"; "Description"; "Message"] /\
    delete "Message" sample_unmapped !! key = None /\
    parse_results
      {| Results := Some (sample_files ++
           [ {| Target := Some "late.yaml";
                Misconfigurations := Some [delete "Message" sample_unmapped] |} ]) |} [] =
      (Raises (KeyError key),
       [ Warning "trivy check 'KSV999' not found in the mapping";
         Warning "trivy check 'KSV999' not found in the mapping" ]).
Proof.
  assert (readable sample_files = true) as Hbefore by (vm_compute; reflexivity).
  assert (has_keys (delete "Message" sample_unmapped) = false) as Hkeys
    by (vm_compute; reflexivity).
  assert (delete "Message" sample_unmapped !! "Status" = Some "WARN") as Hstatus
    by (vm_compute; reflexivity).
  assert (delete "Message" sample_unmapped !! "ID" = Some "KSV999") as Hid
    by (vm_compute; reflexivity).
  destruct (parse_results_warns_before_raising sample_files
              {| Target := Some "late.yaml";
                 Misconfigurations := Some [delete "Message" sample_unmapped] |}
              [] "late.yaml" (delete "Message" sample_unmapped) [] "WARN" "KSV999" []
              Hbefore eq_refl eq_refl Hstatus Hid Hkeys)
    as (key & Hkey & Hnone & Hparse).
  exists key. split; [exact Hkey|]. split; [exact Hnone|].
  rewrite Hparse. f_equal.
Defined.

(** ** Records of one file entry *)

(** X11: the [check_id] and the [obj_name] of a record depend on the
    target of the file entry alone: two findings, of any two inputs that
    [parse_results] returns on, whose file entries have the same target
    get the same [obj_name] and the same [check_id], and the [check_id]
    of every record is what the extractor gives for its [obj_name]. *)
Theorem check_id_depends_on_target_only
    results1 results2 rs1 rs2 log1 log2 out1 out2 log1' log2' i j p1 p2 r1 r2 :
  Results results1 = Some rs1 -> Results results2 = Some rs2 ->
  parse_results results1 log1 = (Returns out1, log1') ->
  parse_results results2 log2 = (Returns out2, log2') ->
  encounter rs1 !! i = Some p1 -> out1 !! i = Some r1 ->
  encounter rs2 !! j = Some p2 -> out2 !! j = Some r2 ->
  Target p1.1 = Target p2.1 ->
  obj_name r1 = obj_name r2 /\ check_id r1 = check_id r2 /\
  check_id r1 = extract_check_id (obj_name r1).
Proof.
  intros Hrs1 Hrs2 Hparse1 Hparse2 Hp1 Hr1 Hp2 Hr2 Htarget.
  apply parse_results_returns_inv in Hparse1 as (rs1' & Hrs1' & _ & Hout1).
  apply parse_results_returns_inv in Hparse2 as (rs2' & Hrs2' & _ & Hout2).
  assert (rs1' = rs1) as -> by congruence.
  assert (rs2' = rs2) as -> by congruence.
  pose proof (Forall2_lookup_lr _ _ _ _ _ _ Hout1 Hp1 Hr1)
    as ((t1 & Ht1 & Hname1 & Hid1) & _).
  pose proof (Forall2_lookup_lr _ _ _ _ _ _ Hout2 Hp2 Hr2)
    as ((t2 & Ht2 & Hname2 & Hid2) & _).
  assert (t1 = t2) as -> by congruence.
  rewrite Hname1, Hname2, Hid1, Hid2. done.
Qed.

Lemma check_id_depends_on_target_only_witness :
  obj_name
    (sample_record (Some "POD-001") "POD-001-test" "KSV017" "Privileged"
       ".spec.containers[].securityContext.privileged" "HIGH" Alert "d" "m") =
  obj_name
    (sample_record (Some "POD-001") "POD-001-test" "KSV999" "Unknown"
       "" "LOW" Pass "x" "y") /\
  Some "POD-001" = Some "POD-001" /\
  Some "POD-001" = extract_check_id "POD-001-test".
Proof.
  assert (parse_results sample_results [] = (Returns sample_out, sample_log)) as Hparse
    by (vm_compute; reflexivity).
  exact (check_id_depends_on_target_only
           sample_results sample_results sample_files sample_files
           [] [] sample_out sample_out sample_log sample_log 0 1
           ({| Target := Some "manifests/POD-001-test.yaml";
               Misconfigurations := Some [sample_finding; sample_unmapped] |},
            sample_finding)
           ({| Target := Some "manifests/POD-001-test.yaml";
               Misconfigurations := Some [sample_finding; sample_unmapped] |},
            sample_unmapped)
           _ _ eq_refl eq_refl Hparse Hparse eq_refl eq_refl eq_refl eq_refl eq_refl).
Defined.

(** ** The version line *)

Lemma before_char_app c s t :
  occurs c s = false -> before_char c (s +:+ t) = s +:+ before_char c t.
Proof.
  induction s as [|c' s IH]; [done|]. simpl.
  change (String c' s +:+ ?x) with (String c' (s +:+ x)). simpl.
  destruct (Ascii.eqb c' c); [done|]. simpl. intros H. by rewrite IH.
Qed.

Lemma before_char_none c s : occurs c s = false -> before_char c s = s.
Proof.
  induction s as [|c' s IH]; [done|]. simpl.
  destruct (Ascii.eqb c' c); [done|]. simpl. intros H. by rewrite IH.
Qed.

Lemma count_char_app c s t : count_char c (s +:+ t) = count_char c s + count_char c t.
Proof.
  induction s as [|c' s IH]; [done|].
  change (String c' s +:+ t) with (String c' (s +:+ t)). simpl. rewrite IH. lia.
Qed.

Lemma after_char_app c s t :
  occurs c s = false -> after_char c (s +:+ String c t) = t.
Proof.
  induction s as [|c' s IH].
  - intros _. change ("" +:+ String c t) with (String c t). simpl.
    by rewrite Ascii.eqb_refl.
  - change (String c' s +:+ ?x) with (String c' (s +:+ x)). simpl.
    destruct (Ascii.eqb c' c); [done|]. apply IH.
Qed.

Lemma string_app_empty s : s +:+ "" = s.
Proof.
  induction s as [|c s IH]; [done|].
  change (String c s +:+ "") with (String c (s +:+ "")). by rewrite IH.
Qed.

Lemma get_version_line label version rest log :
  occurs " " label = false -> occurs "010" label = false ->
  occurs " " version = false -> occurs "010" version = false ->
  before_char "010" rest = "" ->
  get_version (label +:+ String " " (version +:+ rest)) log = (Returns version, log).
Proof.
  intros Hl1 Hl2 Hv1 Hv2 Hrest. rewrite get_version_eq.
  assert (before_char "010" (label +:+ String " " (version +:+ rest)) =
          label +:+ String " " version) as ->.
  { rewrite before_char_app by done. f_equal. simpl. f_equal.
    rewrite before_char_app by done. rewrite Hrest. apply string_app_empty. }
  rewrite count_char_app. simpl.
  apply count_char_occurs in Hl1, Hv1. rewrite Hl1, Hv1. simpl.
  rewrite after_char_app; [done|]. by apply count_char_occurs.
Qed.

(** X12: [get_version] reads the format of its docstring back: for a
    label and a version without spaces and newlines, the text made of
    the label, one space and the version, alone or followed by a newline
    and any further lines, gives the version, which may be empty. *)
Theorem get_version_label_version label version rest log :
  occurs " " label = false -> occurs "010" label = false ->
  occurs " " version = false -> occurs "010" version = false ->
  get_version (label +:+ " " +:+ version) log = (Returns version, log) /\
  get_version (label +:+ " " +:+ version +:+ String "010" rest) log =
    (Returns version, log).
Proof.
  intros Hl1 Hl2 Hv1 Hv2. split.
  - pose proof (get_version_line label version "" log Hl1 Hl2 Hv1 Hv2 eq_refl) as H.
    by rewrite string_app_empty in H.
  - apply (get_version_line label version (String "010" rest) log); try done.
Qed.

Lemma get_version_label_version_witness :
  get_version "Version: 0.45.0" [] = (Returns "0.45.0", []) /\
  get_version ("Version: 0.45.0" +:+ String "010" "Vulnerability DB: ...") [] =
    (Returns "0.45.0", []).
Proof.
  apply (get_version_label_version "Version:" "0.45.0" "Vulnerability DB: ..." []);
    vm_compute; reflexivity.
Defined.

(** ** Keys that are not read *)

Lemma subscript_ext d d' key :
  d' !! key = d !! key -> subscript d' key = subscript d key.
Proof. unfold subscript. by intros ->. Qed.

Lemma parse_misconfig_ext result result' m m' :
  Target result' = Target result ->
  (forall key, key ∈ required_keys -> m' !! key = m !! key) ->
  parse_misconfig result' m' = parse_misconfig result m.
Proof.
  intros Htarget Hkeys. unfold parse_misconfig. rewrite Htarget.
  rewrite !(subscript_ext m m') by (apply Hkeys, list_elem_of_In; simpl; auto 10).
  done.
Qed.

Lemma misconfig_loop_ext f result result' ms :
  Target result' = Target result ->
  (forall m key, key ∈ required_keys -> f m !! key = m !! key) ->
  forall acc log,
    misconfig_loop result' (f <$> ms) acc log = misconfig_loop result ms acc log.
Proof.
  intros Htarget Hf. induction ms as [|m ms IH]; intros acc log; [done|].
  rewrite fmap_cons. cbn [misconfig_loop].
  rewrite (parse_misconfig_ext result result' m (f m)) by auto.
  unfold bind. destruct (parse_misconfig result m log) as [[r|e] log1]; [|done].
  apply IH.
Qed.

(** X13: [parse_results] reads six keys of a finding and no other.
    Changing the findings in any way that keeps the values of [Status],
    [ID], [Title], [Severity], [Description] and [Message], such as adding
    or dropping other keys, changes neither the outcome nor the log. *)
Theorem parse_results_ignores_other_keys f results log :
  (forall m key, key ∈ required_keys -> f m !! key = m !! key) ->
  parse_results (map_findings f results) log = parse_results results log.
Proof.
  intros Hf. unfold parse_results, map_findings. cbn [Results].
  destruct (Results results) as [rs|]; [|done].
  cbn [fmap option_fmap option_map].
  rewrite !(bind_returns (member "Results" (Some _)) _ log _ log eq_refl).
  generalize (@nil CheckResult) as acc. revert log.
  induction rs as [|result rs IH]; intros log acc; [done|].
  rewrite fmap_cons. cbn [result_loop Target Misconfigurations].
  unfold bind.
  assert (forall acc log,
    misconfig_loop
      {| Target := Target result;
         Misconfigurations := fmap (M := list) f <$> Misconfigurations result |}
      (default [] (fmap (M := list) f <$> Misconfigurations result)) acc log =
    misconfig_loop result (default [] (Misconfigurations result)) acc log) as ->.
  { intros acc' log'. destruct (Misconfigurations result) as [ms|]; [|done].
    cbn [fmap option_fmap option_map default]. by apply misconfig_loop_ext. }
  destruct (misconfig_loop result _ acc log) as [[acc1|e] log1]; [|done].
  apply IH.
Qed.

Lemma parse_results_ignores_other_keys_witness :
  parse_results
    (map_findings (fun m => <["PrimaryURL" := "https://example.org"]> m)
                  sample_results) [] =
  parse_results sample_results [].
Proof.
  apply (parse_results_ignores_other_keys
           (fun m => <["PrimaryURL" := "https://example.org"]> m) sample_results []).
  intros m key Hkey. apply lookup_insert_ne.
  apply list_elem_of_In in Hkey. simpl in Hkey.
  repeat (destruct Hkey as [<-|Hkey]; [done|]). done.
Defined.

(** ** The object name *)

Lemma occurs_app c s t : occurs c (s +:+ t) = occurs c s || occurs c t.
Proof.
  induction s as [|c' s IH]; [done|].
  change (String c' s +:+ t) with (String c' (s +:+ t)). simpl.
  rewrite IH. by rewrite orb_assoc.
Qed.

Lemma split_app_last sep s f :
  occurs sep f = false ->
  Py.split sep (s +:+ String sep f) = Py.split sep s ++ [f].
Proof.
  intros Hf. induction s as [|c s IH].
  - change ("" +:+ String sep f) with (String sep f). simpl.
    rewrite Ascii.eqb_refl. f_equal. by apply split_count_0, count_char_occurs.
  - change (String c s +:+ String sep f) with (String c (s +:+ String sep f)).
    simpl. rewrite IH. destruct (Ascii.eqb c sep); [done|].
    pose proof (split_length sep s) as Hlen.
    by destruct (Py.split sep s).
Qed.

Lemma rfind_none c s : occurs c s = false -> Py.rfind c s = None.
Proof.
  induction s as [|c' s IH]; [done|]. simpl.
  destruct (Ascii.eqb c' c); [done|]. simpl. intros H. by rewrite IH.
Qed.

Lemma rfind_app c s t :
  occurs c t = false -> Py.rfind c (s +:+ String c t) = Some (String.length s).
Proof.
  intros Ht. induction s as [|c' s IH].
  - change ("" +:+ String c t) with (String c t). simpl.
    by rewrite rfind_none, Ascii.eqb_refl.
  - change (String c' s +:+ String c t) with (String c' (s +:+ String c t)).
    simpl. by rewrite IH.
Qed.

Lemma length_string_app s t :
  String.length (s +:+ t) = String.length s + String.length t.
Proof.
  induction s as [|c s IH]; [done|].
  change (String c s +:+ t) with (String c (s +:+ t)). simpl. by rewrite IH.
Qed.

Lemma substring_app s t : String.substring 0 (String.length s) (s +:+ t) = s.
Proof.
  induction s as [|c s IH]; [by destruct t|].
  change (String c s +:+ t) with (String c (s +:+ t)). simpl. by rewrite IH.
Qed.

Lemma stem_of_name name ext :
  name <> "" -> occurs "." ext = false -> ext <> "" ->
  match Py.rfind "." (name +:+ String "." ext) with
  | Some i =>
      if (0 <? i) && (i <? String.length (name +:+ String "." ext) - 1)
      then String.substring 0 i (name +:+ String "." ext)
      else name +:+ String "." ext
  | None => name +:+ String "." ext
  end = name.
Proof.
  intros Hname Hdot Hext. rewrite rfind_app by done.
  rewrite length_string_app. simpl.
  assert (0 < String.length name) as Hn by (destruct name; [done|simpl; lia]).
  assert (0 < String.length ext) as He by (destruct ext; [done|simpl; lia]).
  apply Nat.ltb_lt in Hn as Hn'. rewrite Hn'.
  assert ((String.length name <? String.length name + S (String.length ext) - 1) = true)
    as -> by (apply Nat.ltb_lt; lia).
  simpl. apply substring_app.
Qed.

Lemma file_name_kept name ext :
  name <> "" -> ext <> "" ->
  negb (String.eqb (name +:+ String "." ext) "" ||
        String.eqb (name +:+ String "." ext) ".") = true.
Proof.
  intros Hname Hext. destruct name as [|a name]; [done|].
  change (String a name +:+ ?x) with (String a (name +:+ x)).
  apply negb_true_iff, orb_false_iff. split; [done|].
  apply String.eqb_neq. intros [= -> H].
  destruct name; discriminate.
Qed.

(** X14: the object name is the file name of the target without its
    directory and without its last extension.  For a file name made of a
    non-empty name, a dot and a non-empty extension that has no dot, with
    no slash in either, alone or after any directory and a slash, the
    stem is the name, and so the check id is extracted from the name
    alone. *)
Theorem stem_of_target dir name ext :
  occurs "/" name = false -> name <> "" ->
  occurs "/" ext = false -> occurs "." ext = false -> ext <> "" ->
  Py.stem (name +:+ String "." ext) = name /\
  Py.stem (dir +:+ String "/" (name +:+ String "." ext)) = name /\
  extract_check_id (Py.stem (dir +:+ String "/" (name +:+ String "." ext))) =
    extract_check_id name.
Proof.
  intros Hn1 Hn2 He1 He2 He3.
  assert (occurs "/" (name +:+ String "." ext) = false) as Hslash.
  { rewrite occurs_app. simpl. by rewrite Hn1, He1. }
  assert (Py.path_name (name +:+ String "." ext) = name +:+ String "." ext) as Hname.
  { unfold Py.path_name. rewrite split_count_0 by by apply count_char_occurs.
    cbn [List.filter]. by rewrite file_name_kept. }
  assert (Py.path_name (dir +:+ String "/" (name +:+ String "." ext)) =
          name +:+ String "." ext) as Hpath.
  { unfold Py.path_name. rewrite split_app_last by done.
    rewrite List.filter_app. cbn [List.filter]. rewrite file_name_kept by done.
    apply List.last_last. }
  assert (Py.stem (dir +:+ String "/" (name +:+ String "." ext)) = name) as Hstem.
  { unfold Py.stem. rewrite Hpath. by apply stem_of_name. }
  split; [|by rewrite Hstem].
  unfold Py.stem. rewrite Hname. by apply stem_of_name.
Qed.

Lemma stem_of_target_witness :
  Py.stem "POD-001-privileged.yaml" = "POD-001-privileged" /\
  Py.stem "manifests/pods/POD-001-privileged.yaml" = "POD-001-privileged" /\
  extract_check_id (Py.stem "manifests/pods/POD-001-privileged.yaml") =
    extract_check_id "POD-001-privileged".
Proof.
  apply (stem_of_target "manifests/pods" "POD-001-privileged" "yaml");
    vm_compute; congruence.
Defined.
